(** * UnificadorDePlanilha: the colour-classified formula pipeline

    A shallow embedding of the pure core of [UnificadorDePlanilha.py]
    (text normalisation, fill-colour extraction, the range collector,
    the ABC ambiguity scan, the lookup-formula stages and the hierarchical
    aggregator) together with the properties its specification states.

    Modelling conventions.
    - A Python [str] is a Rocq [string].  The text functions ([strip],
      [upper], the whitespace class of [re]) follow Python on the ASCII
      range; characters above 127 are kept as they are and are never
      white space.
    - A Python [int] is a [Z]; [str(int)] is its decimal numeral.
    - A sheet is a finite map from (row, column) to cells; reading a
      position that holds no cell yields openpyxl's default cell.
    - A [set] of text is a [gset string], a [dict] a [gmap]. *)

From Stdlib Require Import ZArith Ascii String List Decimal DecimalString DecimalZ.
From Stdlib Require Import SpecFloat.
From stdpp Require Import base tactics option list gmap strings.

Local Open Scope string_scope.
Local Open Scope Z_scope.

(** ** Python text primitives *)

Module PyStr.

(** [str.isspace] on one character, ASCII range: TAB, LF, VT, FF, CR, the
    four separators FS GS RS US, and the space. *)
Definition isspace (c : ascii) : bool :=
  let n := nat_of_ascii c in
  ((9 <=? n)%nat && (n <=? 13)%nat) || ((28 <=? n)%nat && (n <=? 32)%nat).

Definition is_lower (c : ascii) : bool :=
  let n := nat_of_ascii c in (97 <=? n)%nat && (n <=? 122)%nat.

Definition upper_char (c : ascii) : ascii :=
  if is_lower c then ascii_of_nat (nat_of_ascii c - 32) else c.

(** [s.upper()] *)
Fixpoint upper (s : string) : string :=
  match s with
  | EmptyString => EmptyString
  | String c s' => String (upper_char c) (upper s')
  end.

(** [s.lstrip()] *)
Fixpoint lstrip (s : string) : string :=
  match s with
  | EmptyString => EmptyString
  | String c s' => if isspace c then lstrip s' else s
  end.

(** [s.rstrip()] *)
Fixpoint rstrip (s : string) : string :=
  match s with
  | EmptyString => EmptyString
  | String c s' =>
      match rstrip s' with
      | EmptyString => if isspace c then EmptyString else String c EmptyString
      | r => String c r
      end
  end.

(** [s.strip()] *)
Definition strip (s : string) : string := rstrip (lstrip s).

(** [re.sub(r'\s+', ' ', s)]: every maximal run of white space becomes one
    space.  [in_run] tells that the previous character was white space. *)
Fixpoint collapse_from (in_run : bool) (s : string) : string :=
  match s with
  | EmptyString => EmptyString
  | String c s' =>
      if isspace c
      then (if in_run then collapse_from true s'
            else String " "%char (collapse_from true s'))
      else String c (collapse_from false s')
  end.

Definition collapse_ws (s : string) : string := collapse_from false s.

(** [s.replace(old, new)] for a one-character [old]. *)
Fixpoint replace_char (old : ascii) (new : string) (s : string) : string :=
  match s with
  | EmptyString => EmptyString
  | String c s' =>
      if Ascii.eqb c old then new ++ replace_char old new s'
      else String c (replace_char old new s')
  end.

(** [s.count(c)] for a one-character [c]. *)
Fixpoint count_char (c : ascii) (s : string) : Z :=
  match s with
  | EmptyString => 0
  | String a s' => (if Ascii.eqb a c then 1 else 0) + count_char c s'
  end.

(** [s[n:]] *)
Fixpoint drop (n : nat) (s : string) : string :=
  match n, s with
  | O, _ => s
  | S n', EmptyString => EmptyString
  | S n', String _ s' => drop n' s'
  end.

(** [sep.join(l)] *)
Fixpoint join (sep : string) (l : list string) : string :=
  match l with
  | [] => EmptyString
  | [x] => x
  | x :: l' => x ++ sep ++ join sep l'
  end.

(** [str(n)] for an [int]. *)
Definition of_int (z : Z) : string := NilEmpty.string_of_int (Z.to_int z).

(** [int(s)] restricted to plain decimal numerals, the inverse of [of_int]. *)
Definition to_int (s : string) : option Z :=
  match s with
  | EmptyString => None
  | _ => option_map Z.of_int (NilEmpty.int_of_string s)
  end.

End PyStr.

(** ** Python values held by cells *)

(** A [float] is an IEEE binary64 value together with the text that
    [str] prints for it.  Python's shortest round-trip printing is not
    re-implemented: the results below hold whatever that text is. *)
Record pyfloat := PyFloat { fl_val : spec_float; fl_repr : string }.

Inductive pyvalue :=
| PNone
| PBool (b : bool)
| PInt (z : Z)
| PFloat (f : pyfloat)
| PStr (s : string).

(** [str(v)] *)
Definition py_str (v : pyvalue) : string :=
  match v with
  | PNone => "None"
  | PBool true => "True"
  | PBool false => "False"
  | PInt z => PyStr.of_int z
  | PFloat f => fl_repr f
  | PStr s => s
  end.

Definition float_is_zero (f : spec_float) : bool :=
  match f with S754_zero _ => true | _ => false end.

Definition str_is_empty (s : string) : bool :=
  match s with EmptyString => true | _ => false end.

(** [bool(v)]: the truth value tested by [if v] and [not v]. *)
Definition truthy (v : pyvalue) : bool :=
  match v with
  | PNone => false
  | PBool b => b
  | PInt z => negb (z =? 0)
  | PFloat f => negb (float_is_zero (fl_val f))
  | PStr s => negb (str_is_empty s)
  end.

(** ** Cells and sheets *)

(** [fill_rgb] is [Some t] when [cell.fill], its [start_color] and that
    colour's [rgb] are all truthy, [t] being [str(rgb)]; it is [None] when
    one of them is falsy. *)
Record cell := Cell { value : pyvalue; fill_rgb : option string }.

(** The cell openpyxl creates on first access: no value, and the default
    pattern fill, whose start colour is ['00000000']. *)
Definition empty_cell : cell := Cell PNone (Some "00000000").

Record sheet := Sheet {
  title : string;
  max_row : Z;
  cells : gmap (Z * Z) cell
}.

(** [sheet.cell(row, column)] *)
Definition cell_at (sh : sheet) (row col : Z) : cell :=
  default empty_cell (cells sh !! (row, col)).

(** [sheet.cell(row, column).value = v] *)
Definition set_value (sh : sheet) (row col : Z) (v : pyvalue) : sheet :=
  Sheet (title sh) (Z.max (max_row sh) row)
        (<[(row, col) := Cell v (fill_rgb (cell_at sh row col))]> (cells sh)).

(** [range(lo, hi + 1)] *)
Definition rows_between (lo hi : Z) : list Z :=
  map (fun k => lo + Z.of_nat k) (List.seq 0 (Z.to_nat (hi + 1 - lo))).

(** ** Style/Colour model *)

Definition get_cell_color (c : cell) : option string :=
  match fill_rgb c with
  | Some color_rgb =>
      if (String.length color_rgb =? 8)%nat then Some (PyStr.upper (PyStr.drop 2 color_rgb))
      else if (String.length color_rgb =? 6)%nat then Some (PyStr.upper color_rgb)
      else None
  | None => None
  end.

(** [a == b] on optional colours, as in [bg_color == color_blue]. *)
Definition color_is (c : option string) (name : string) : bool :=
  match c with
  | Some s => String.eqb s name
  | None => false
  end.

(** Membership [bg_color in target_colors]. *)
Definition color_in (c : option string) (names : list string) : bool :=
  existsb (color_is c) names.

Definition is_hex_char (c : ascii) : bool :=
  let n := nat_of_ascii c in
  ((48 <=? n)%nat && (n <=? 57)%nat) || ((65 <=? n)%nat && (n <=? 70)%nat)
  || ((97 <=? n)%nat && (n <=? 102)%nat).

Definition is_upper_hex_char (c : ascii) : bool :=
  let n := nat_of_ascii c in
  ((48 <=? n)%nat && (n <=? 57)%nat) || ((65 <=? n)%nat && (n <=? 70)%nat).

(** The characters of a decimal numeral. *)
Definition digit_or_minus (c : ascii) : bool :=
  let n := nat_of_ascii c in (n =? 45)%nat || ((48 <=? n)%nat && (n <=? 57)%nat).

Fixpoint all_chars (p : ascii -> bool) (s : string) : bool :=
  match s with
  | EmptyString => true
  | String c s' => p c && all_chars p s'
  end.

(** ** Range collector *)

Module RangeCollector.

(** One token: [f'{col}{start}'] for a single row, else
    [f'{col}{start}:{col}{end}']. *)
Definition token (col : string) (start end_ : Z) : string :=
  if start =? end_ then col ++ PyStr.of_int start
  else col ++ PyStr.of_int start ++ ":" ++ col ++ PyStr.of_int end_.

(** The loop over [colored_rows[1:]], carrying [ranges], [start], [end],
    followed by the flush of the last run. *)
Fixpoint collect_loop (col : string) (rest : list Z)
    (ranges : list string) (start end_ : Z) : list string :=
  match rest with
  | [] => (ranges ++ [token col start end_])%list
  | r :: rest' =>
      if r =? end_ + 1 then collect_loop col rest' ranges start r
      else collect_loop col rest' (ranges ++ [token col start end_])%list r r
  end.

(** The body guarded by [if colored_rows:]; nothing is emitted for an
    empty list. *)
Definition collect_ranges (col : string) (colored_rows : list Z) : list string :=
  match colored_rows with
  | [] => []
  | r0 :: rest => collect_loop col rest [] r0 r0
  end.

(** [f"=SUM({','.join(ranges)})"], written only when rows were collected. *)
Definition sum_formula (col : string) (colored_rows : list Z) : option string :=
  match colored_rows with
  | [] => None
  | _ => Some ("=SUM(" ++ PyStr.join "," (collect_ranges col colored_rows) ++ ")")
  end.

Definition target_colors : list string := ["D6D6D6"; "EFEFEF"; "F7F3DF"].

(** Rows [1..max_row] whose cell in [column] carries a target colour: the
    [colored_rows] list both stages build. *)
Definition colored_rows (sh : sheet) (column : Z) : list Z :=
  filter (fun r => color_in (get_cell_color (cell_at sh r column)) target_colors = true)
         (rows_between 1 (max_row sh)).

(** Reading a token back. *)

(** [s] with the prefix [p] removed, when [s] starts with [p]. *)
Fixpoint strip_prefix (p s : string) : option string :=
  match p, s with
  | EmptyString, _ => Some s
  | String a p', String b s' => if Ascii.eqb a b then strip_prefix p' s' else None
  | String _ _, EmptyString => None
  end.

(** Split at the first colon. *)
Fixpoint split_colon (s : string) : string * option string :=
  match s with
  | EmptyString => (EmptyString, None)
  | String c s' =>
      if Ascii.eqb c ":" then (EmptyString, Some s')
      else let '(a, b) := split_colon s' in (String c a, b)
  end.

(** The bounds a token denotes: [(row, row)] for a single token. *)
Definition parse_token (col tok : string) : option (Z * Z) :=
  match strip_prefix col tok with
  | None => None
  | Some body =>
      match split_colon body with
      | (a, None) =>
          match PyStr.to_int a with Some s => Some (s, s) | None => None end
      | (a, Some b) =>
          match PyStr.to_int a, strip_prefix col b with
          | Some s, Some b' =>
              match PyStr.to_int b' with Some e => Some (s, e) | None => None end
          | _, _ => None
          end
      end
  end.

(** The rows a token stands for. *)
Definition expand_token (col tok : string) : option (list Z) :=
  match parse_token col tok with
  | Some (s, e) => Some (rows_between s e)
  | None => None
  end.

(** The rows a token list stands for, in order. *)
Fixpoint expand_tokens (col : string) (toks : list string) : option (list Z) :=
  match toks with
  | [] => Some []
  | t :: toks' =>
      match expand_token col t, expand_tokens col toks' with
      | Some a, Some b => Some (a ++ b)%list
      | _, _ => None
      end
  end.

(** Two neighbouring tokens leave a gap: the row after the first one's end
    is below the second one's start. *)
Definition separated (col t1 t2 : string) : Prop :=
  exists s1 e1 s2 e2,
    parse_token col t1 = Some (s1, e1) /\ parse_token col t2 = Some (s2, e2) /\
    e1 + 1 < s2.

(** Strictly ascending rows: sorted and distinct. *)
Fixpoint ascending (l : list Z) : Prop :=
  match l with
  | [] => True
  | x :: l' => match l' with [] => True | y :: _ => x < y end /\ ascending l'
  end.

(** The runs of consecutive rows the loop delimits, as pairs of bounds;
    [collect_loop] emits one token for each (lemma [collect_loop_runs]). *)
Fixpoint runs (rest : list Z) (start end_ : Z) : list (Z * Z) :=
  match rest with
  | [] => [(start, end_)]
  | r :: rest' =>
      if r =? end_ + 1 then runs rest' start r
      else (start, end_) :: runs rest' r r
  end.

Definition run_token (col : string) (b : Z * Z) : string := token col (fst b) (snd b).

Definition run_rows (b : Z * Z) : list Z := rows_between (fst b) (snd b).

End RangeCollector.

(** ** Description and code normalisation *)

(** [v == s] for a text literal [s]: only a [str] can equal it. *)
Definition eq_text (v : pyvalue) (s : string) : bool :=
  match v with
  | PStr t => String.eqb t s
  | _ => false
  end.

Definition normalize_description (text : pyvalue) : string :=
  if negb (truthy text) || eq_text text "None" then EmptyString
  else PyStr.upper (PyStr.collapse_ws (PyStr.strip (py_str text))).

(** The normal form the function computes for a text that is kept. *)
Definition normal_form (s : string) : string :=
  PyStr.upper (PyStr.collapse_ws (PyStr.strip s)).

(** The shape of a normalised text: no white space at either end, and
    inside only single spaces. *)
Definition no_lead (s : string) : bool :=
  match s with
  | EmptyString => true
  | String c _ => negb (PyStr.isspace c)
  end.

Fixpoint no_trail (s : string) : bool :=
  match s with
  | EmptyString => true
  | String c s' =>
      match s' with
      | EmptyString => negb (PyStr.isspace c)
      | _ => no_trail s'
      end
  end.


(** ** Hierarchy level *)

Definition get_item_level_py (item_value : pyvalue) : Z :=
  if negb (truthy item_value) then -1
  else
    let clean_string := PyStr.strip (py_str item_value) in
    if str_is_empty clean_string then -1
    else PyStr.count_char "." clean_string + 1.

(** The values the specification calls empty or blank: [None], the empty
    text, and text made of white space only. *)
Definition is_blank (v : pyvalue) : bool :=
  match v with
  | PNone => true
  | PStr s => str_is_empty (PyStr.strip s)
  | _ => false
  end.

(** ** Code/Description index: the ambiguity scan *)

(** [str(cell.value).strip() if cell.value else ''] *)
Definition cell_code (v : pyvalue) : string :=
  if truthy v then PyStr.strip (py_str v) else EmptyString.

Record scan_state := ScanState {
  code_map : gmap string string;
  problematic_codes : gset string
}.

Definition scan_start : scan_state := ScanState ∅ ∅.

(** One iteration of the loop over the rows; [row] is the pair of values
    of columns A and B. *)
Definition scan_row (st : scan_state) (row : pyvalue * pyvalue) : scan_state :=
  let code := cell_code (fst row) in
  let bank := cell_code (snd row) in
  if negb (str_is_empty code) && negb (String.eqb code "None") then
    match code_map st !! code with
    | Some first_bank =>
        if negb (String.eqb first_bank bank)
        then ScanState (code_map st) ({[code]} ∪ problematic_codes st)
        else st
    | None => ScanState (<[code := bank]> (code_map st)) (problematic_codes st)
    end
  else st.

Definition scan_rows (rows : list (pyvalue * pyvalue)) : gset string :=
  problematic_codes (fold_left scan_row rows scan_start).

(** The values of columns A and B on rows [2..max_row]. *)
Definition abc_rows (abc_sheet : sheet) : list (pyvalue * pyvalue) :=
  map (fun row_idx => (value (cell_at abc_sheet row_idx 1),
                       value (cell_at abc_sheet row_idx 2)))
      (rows_between 2 (max_row abc_sheet)).

Definition _find_problematic_abc_codes (abc_sheet : sheet) : gset string :=
  scan_rows (abc_rows abc_sheet).





(** ** Formula text *)

Module Formula.

(** The double quote character, and a text between double quotes. *)
Definition dquote : string := String "034"%char EmptyString.


(** [f"'{sheet.title}'"] *)
Definition sheet_name (sh : sheet) : string := "'" ++ title sh ++ "'".

(** [f'{col}{row_idx}'] *)
Definition cell_ref (col : string) (row_idx : Z) : string := col ++ PyStr.of_int row_idx.




(** [f"=SUM({','.join(cells)})"] over the cells of [col] on [rows]. *)
Definition sum_of (col : string) (rows : list Z) : string :=
  "=SUM(" ++ PyStr.join "," (map (cell_ref col) rows) ++ ")".

End Formula.

(** ** Step 10: input lookups on the CPUs sheet *)

Definition color_gray : string := "EFEFEF".

(** The body of the loop for one row; the two sheets were found by
    title before the loop starts. *)
Definition fourth_step_row (abc_sheet : sheet) (problematic_codes : gset string)
    (cpus_sheet : sheet) (row_idx : Z) : sheet :=
  let abc_sheet_name := Formula.sheet_name abc_sheet in
  let cell_h := cell_at cpus_sheet row_idx 8 in
  if color_is (get_cell_color cell_h) color_gray then
    let code := cell_code (value (cell_at cpus_sheet row_idx 2)) in
    if bool_decide (code ∈ problematic_codes) then
      let cell_d_ref := Formula.cell_ref "D" row_idx in
      set_value cpus_sheet row_idx 8
        (PStr ("=IFERROR(INDEX(" ++ abc_sheet_name ++ "!$G:$G,MATCH(" ++ cell_d_ref
               ++ "," ++ abc_sheet_name ++ "!$C:$C,0)),"
               ++ Formula.dquote ++ "Descrição não encontrada" ++ Formula.dquote ++ ")"))
    else
      let cell_b_ref := Formula.cell_ref "B" row_idx in
      set_value cpus_sheet row_idx 8
        (PStr ("=IFERROR(VLOOKUP(" ++ cell_b_ref ++ "," ++ abc_sheet_name
               ++ "!$A:$G,7,FALSE),"
               ++ Formula.dquote ++ "Código não encontrado" ++ Formula.dquote ++ ")"))
  else cpus_sheet.

Definition apply_fourth_step_cpus_sheet (cpus_sheet abc_sheet : sheet)
    (problematic_codes : gset string) : sheet :=
  let last_row_cpus := max_row cpus_sheet in
  fold_left (fourth_step_row abc_sheet problematic_codes)
            (rows_between 1 last_row_cpus) cpus_sheet.

(** ** Step 17: column G of the synthetic sheet *)

Definition color_green : string := "DFF0D8".
Definition color_yellow : string := "F7F3DF".

Definition sintetico_step_4_row (wsCPUs wsABC : sheet) (problematic_codes : gset string)
    (wsOS : sheet) (row_idx : Z) : sheet :=
  let cpus_sheet_name := Formula.sheet_name wsCPUs in
  let abc_sheet_name := Formula.sheet_name wsABC in
  let cell_g := cell_at wsOS row_idx 7 in
  let cellColor := get_cell_color cell_g in
  if color_is cellColor color_green then
    let cell_b_ref := Formula.cell_ref "B" row_idx in
    set_value wsOS row_idx 7
      (PStr ("=IFERROR(VLOOKUP(" ++ cell_b_ref ++ "," ++ cpus_sheet_name
             ++ "!$B:$H,7,FALSE),0)"))
  else if color_is cellColor color_yellow then
    let code := PyStr.strip (py_str (value (cell_at wsOS row_idx 2))) in
    if bool_decide (code ∈ problematic_codes) then
      let cell_d_ref := Formula.cell_ref "D" row_idx in
      set_value wsOS row_idx 7
        (PStr ("=IFERROR(INDEX(" ++ abc_sheet_name ++ "!$G:$G,MATCH(" ++ cell_d_ref
               ++ "," ++ abc_sheet_name ++ "!$C:$C,0)),0)"))
    else
      let cell_b_ref := Formula.cell_ref "B" row_idx in
      set_value wsOS row_idx 7
        (PStr ("=IFERROR(VLOOKUP(" ++ cell_b_ref ++ "," ++ abc_sheet_name
               ++ "!$A:$G,7,FALSE),0)"))
  else wsOS.

Definition apply_sintetico_step_4 (wsOS wsCPUs wsABC : sheet)
    (problematic_codes : gset string) : sheet :=
  let lastRowOS := max_row wsOS in
  fold_left (sintetico_step_4_row wsCPUs wsABC problematic_codes)
            (rows_between 1 lastRowOS) wsOS.

(** ** Hierarchical aggregator *)

Definition color_blue : string := "D8ECF6".

(** The level of the row, from its cell in column A. *)
Definition level_at (sh : sheet) (row_idx : Z) : Z :=
  get_item_level_py (value (cell_at sh row_idx 1)).

(** The forward scan from a parent: the rows whose [I] and [J] cells are
    appended to [sum_cells_i] and [sum_cells_j].  The scan stops ([break])
    at the first row with a level that is not -1 and at most the
    parent's. *)
Fixpoint scan_children (sh : sheet) (parent_level : Z) (rows : list Z) : list Z :=
  match rows with
  | [] => []
  | child_row_idx :: rest =>
      let child_level := level_at sh child_row_idx in
      if negb (child_level =? -1) && (child_level <=? parent_level) then []
      else if child_level =? parent_level + 1
           then child_row_idx :: scan_children sh parent_level rest
           else scan_children sh parent_level rest
  end.

Definition sum_hierarchy_row (last_row : Z) (sh : sheet) (row_idx : Z) : sheet :=
  let cell_a := cell_at sh row_idx 1 in
  if color_is (get_cell_color cell_a) color_blue then
    let parent_level := get_item_level_py (value cell_a) in
    if parent_level =? -1 then sh
    else
      match scan_children sh parent_level (rows_between (row_idx + 1) last_row) with
      | [] => sh
      | children =>
          set_value (set_value sh row_idx 9 (PStr (Formula.sum_of "I" children)))
                    row_idx 10 (PStr (Formula.sum_of "J" children))
      end
  else sh.

Definition apply_sintetico_sum_hierarchy (target_sheet : sheet) : sheet :=
  let last_row := max_row target_sheet in
  fold_left (sum_hierarchy_row last_row) (rows_between 1 last_row) target_sheet.

(** The children the aggregator collects for the row [row_idx]. *)
Definition children_of (sh : sheet) (row_idx : Z) : list Z :=
  scan_children sh (level_at sh row_idx) (rows_between (row_idx + 1) (max_row sh)).



(** What the aggregator never changes: column A. *)
Definition same_column_a (a b : sheet) : Prop :=
  forall r, cell_at b r 1 = cell_at a r 1.

(** A synthetic sheet whose five rows have the levels 1, 2, 2, 3, 1; the
    leaf on row 4 is not a parent row. *)
Definition outline_sheet : sheet :=
  Sheet "Orçamento Sintético" 5
    (list_to_map
       [((1, 1), Cell (PStr "1") (Some "FFD8ECF6"));
        ((2, 1), Cell (PStr "1.1") (Some "FFD8ECF6"));
        ((3, 1), Cell (PStr "1.2") (Some "FFD8ECF6"));
        ((4, 1), Cell (PStr "1.2.1") (Some "FFF7F3DF"));
        ((5, 1), Cell (PStr "2") (Some "FFD8ECF6"));
        ((5, 9), Cell (PInt 7) (Some "FFD8ECF6"))]).

(** ** A small workbook *)

(** An ABC sheet on which the code ['00001'] comes from two banks. *)
Definition abc_sample : sheet :=
  Sheet "Curva ABC de Insumos" 4
    (list_to_map
       [((1, 1), Cell (PStr "Código") None); ((1, 2), Cell (PStr "Banco") None);
        ((2, 1), Cell (PStr "00001") None); ((2, 2), Cell (PStr "SINAPI") None);
        ((3, 1), Cell (PStr " 00001") None); ((3, 2), Cell (PStr "SBC") None);
        ((4, 1), Cell (PInt 2) None); ((4, 2), Cell (PStr "SINAPI") None)]).

(** A CPUs sheet with two input rows, gray in column H. *)
Definition cpus_sample : sheet :=
  Sheet "Composições com Preço Unitário" 2
    (list_to_map
       [((1, 2), Cell (PStr "00001") None); ((1, 8), Cell PNone (Some "FFEFEFEF"));
        ((2, 2), Cell (PInt 2) None); ((2, 8), Cell PNone (Some "FFEFEFEF"))]).

(** A synthetic sheet with two input rows, yellow in column G. *)
Definition sintetico_sample : sheet :=
  Sheet "Orçamento Sintético" 2
    (list_to_map
       [((1, 2), Cell (PStr "00001 ") None); ((1, 7), Cell PNone (Some "FFF7F3DF"));
        ((2, 2), Cell (PInt 2) None); ((2, 7), Cell PNone (Some "FFF7F3DF"))]).

(** ** Hierarchical key normalisation (column A of the synthetic sheet) *)

Module PyFloatOps.

(** [x.is_integer()] *)
Definition is_integer (x : spec_float) : bool :=
  match x with
  | S754_zero _ => true
  | S754_finite _ m e =>
      if 0 <=? e then true else Z.pos m mod 2 ^ (- e) =? 0
  | _ => false
  end.

(** [int(x)] for a finite [x]: truncation towards zero. *)
Definition to_int (x : spec_float) : Z :=
  match x with
  | S754_finite s m e =>
      let a := if 0 <=? e then Z.pos m * 2 ^ e else Z.pos m / 2 ^ (- e) in
      if s then - a else a
  | _ => 0
  end.

(** [s[:n]] *)
Fixpoint take (n : nat) (s : string) : string :=
  match n, s with
  | O, _ => EmptyString
  | S _, EmptyString => EmptyString
  | S n', String c s' => String c (take n' s')
  end.

(** [s.rstrip('0')] *)
Fixpoint rstrip_zeros (s : string) : string :=
  match s with
  | EmptyString => EmptyString
  | String c s' =>
      match rstrip_zeros s' with
      | EmptyString => if Ascii.eqb c "0" then EmptyString else String c EmptyString
      | r => String c r
      end
  end.

Fixpoint zeros (n : nat) : string :=
  match n with
  | O => EmptyString
  | S n' => String "0" (zeros n')
  end.

(** [10 ** x <= num / den], for positive [num] and [den]. *)
Definition pow10_le (num den x : Z) : bool :=
  if 0 <=? x then 10 ^ x * den <=? num else den <=? num * 10 ^ (- x).

(** The decimal exponent of [num / den]: the largest [x], searched
    downwards from [start], with [10 ** x <= num / den]. *)
Fixpoint decimal_exponent (fuel : nat) (num den start : Z) : Z :=
  match fuel with
  | O => start
  | S fuel' =>
      if pow10_le num den start then start
      else decimal_exponent fuel' num den (start - 1)
  end.

(** [num / den] rounded to the nearest integer, ties to even. *)
Definition round_half_even (num den : Z) : Z :=
  let q := num / den in
  let r := num mod den in
  if (den <? 2 * r) || ((2 * r =? den) && Z.odd q) then q + 1 else q.

(** The exponent field of the scientific form: a sign and at least two
    digits. *)
Definition exponent_text (x : Z) : string :=
  let a := Z.abs x in
  "e" ++ (if x <? 0 then "-" else "+")
      ++ (if a <? 10 then "0" ++ PyStr.of_int a else PyStr.of_int a).

(** [format(x, 'g')] for a positive [num / den]: six significant digits,
    correctly rounded; fixed notation when the decimal exponent is in
    [-4, 6), scientific otherwise; trailing zeros and a trailing point
    removed. *)
Definition format_g_pos (num den : Z) : string :=
  let x0 := decimal_exponent 700 num den 310 in
  let d0 := round_half_even (num * 10 ^ Z.max (5 - x0) 0) (den * 10 ^ Z.max (x0 - 5) 0) in
  let '(d, x) := if d0 =? 10 ^ 6 then (10 ^ 5, x0 + 1) else (d0, x0) in
  let digits := PyStr.of_int d in
  if (-4 <=? x) && (x <? 6) then
    if 0 <=? x then
      let int_part := take (Z.to_nat (x + 1)) digits in
      match rstrip_zeros (PyStr.drop (Z.to_nat (x + 1)) digits) with
      | EmptyString => int_part
      | frac => int_part ++ "." ++ frac
      end
    else "0." ++ zeros (Z.to_nat (- x - 1)) ++ rstrip_zeros digits
  else
    match rstrip_zeros (PyStr.drop 1 digits) with
    | EmptyString => take 1 digits ++ exponent_text x
    | frac => take 1 digits ++ "." ++ frac ++ exponent_text x
    end.

(** [format(x, 'g')] *)
Definition format_g (x : spec_float) : string :=
  match x with
  | S754_zero s => if s then "-0" else "0"
  | S754_infinity s => if s then "-inf" else "inf"
  | S754_nan => "nan"
  | S754_finite s m e =>
      let body := format_g_pos (Z.pos m * 2 ^ Z.max e 0) (2 ^ Z.max (- e) 0) in
      if s then "-" ++ body else body
  end.

End PyFloatOps.

Definition normalize_sintetico_coluna_a (v : pyvalue) : option string :=
  match v with
  | PNone => None
  | PBool b => Some (py_str (PBool b))
  | PInt z => Some (PyStr.of_int z)
  | PFloat f =>
      if PyFloatOps.is_integer (fl_val f)
      then Some (PyStr.of_int (PyFloatOps.to_int (fl_val f)))
      else Some (PyFloatOps.format_g (fl_val f))
  | PStr s =>
      let text_value := PyStr.replace_char " " EmptyString s in
      if str_is_empty text_value then Some EmptyString
      else Some (PyStr.replace_char "," "." text_value)
  end.

(** The binary64 values of the literals [5.0] and [5.10]. *)
Definition float_5_0 : spec_float := S754_finite false 5629499534213120 (-50).
Definition float_5_10 : spec_float := S754_finite false 5742089524897382 (-50).

(** * Further stages and helpers *)

(** Only the value and the fill colour of a cell are modelled.  What the
    stages below do to fonts, borders, number formats, alignment and row
    dimensions is left out; everything they do to values is kept. *)

(** A character other than the space and the comma. *)
Definition no_space_comma (c : ascii) : bool :=
  negb (Ascii.eqb c " ") && negb (Ascii.eqb c ",").


(** ** Step 4: formulas in columns G and H of the ABC sheet *)

Definition formulas_abc_row (target_sheet : sheet) (row_idx : Z) : sheet :=
  let sh1 :=
    if color_in (get_cell_color (cell_at target_sheet row_idx 7)) RangeCollector.target_colors
    then set_value target_sheet row_idx 7
           (PStr ("=J" ++ PyStr.of_int row_idx ++ "*(1-K" ++ PyStr.of_int row_idx ++ ")"))
    else target_sheet in
  if color_in (get_cell_color (cell_at sh1 row_idx 8)) RangeCollector.target_colors
  then set_value sh1 row_idx 8
         (PStr ("=F" ++ PyStr.of_int row_idx ++ "*G" ++ PyStr.of_int row_idx))
  else sh1.

Definition apply_formulas_to_curva_abc (target_sheet : sheet) : sheet :=
  fold_left formulas_abc_row (rows_between 1 (max_row target_sheet)) target_sheet.

(** ** Step 5: the sum of column H and the formulas of columns I and K *)

Definition is_none (v : pyvalue) : bool :=
  match v with PNone => true | _ => false end.

(** The first loop: the coloured rows of column H and the last row whose
    H cell holds a value. *)
Definition scan_column_h (target_sheet : sheet) (acc : list Z * Z) (row_idx : Z) : list Z * Z :=
  let cell_h := cell_at target_sheet row_idx 8 in
  let last_filled_row := if is_none (value cell_h) then snd acc else row_idx in
  let colored_rows :=
    if color_in (get_cell_color cell_h) RangeCollector.target_colors
    then (fst acc ++ [row_idx])%list else fst acc in
  (colored_rows, last_filled_row).

(** The second loop, over the coloured rows. *)
Definition share_row (sum_row : Z) (target_sheet : sheet) (row_idx : Z) : sheet :=
  let sh1 :=
    if color_in (get_cell_color (cell_at target_sheet row_idx 9)) RangeCollector.target_colors
    then set_value target_sheet row_idx 9
           (PStr ("=H" ++ PyStr.of_int row_idx ++ "/$H$" ++ PyStr.of_int sum_row))
    else target_sheet in
  if color_in (get_cell_color (cell_at sh1 row_idx 11)) RangeCollector.target_colors
  then set_value sh1 row_idx 11 (PStr "=0")
  else sh1.

Definition apply_sum_and_formulas_to_curva_abc (target_sheet : sheet) : sheet :=
  let '(colored_rows, last_filled_row) :=
    fold_left (scan_column_h target_sheet) (rows_between 1 (max_row target_sheet)) ([], 0) in
  let sum_row := last_filled_row + 1 in
  let sh1 :=
    match RangeCollector.sum_formula "H" colored_rows with
    | Some sum_formula => set_value target_sheet sum_row 8 (PStr sum_formula)
    | None => target_sheet
    end in
  fold_left (share_row sum_row) colored_rows sh1.

(** The row the sum is written on. *)
Definition sum_row_h (target_sheet : sheet) : Z :=
  snd (fold_left (scan_column_h target_sheet) (rows_between 1 (max_row target_sheet)) ([], 0)) + 1.

(** An ABC sheet with three coloured rows, each holding a value in H. *)
Definition abc_values_sample : sheet :=
  Sheet "Curva ABC de Insumos" 5
    (list_to_map
       [((1, 8), Cell (PStr "Total") None);
        ((2, 8), Cell (PInt 10) (Some "FFD6D6D6")); ((2, 9), Cell PNone (Some "FFD6D6D6"));
        ((3, 8), Cell (PInt 20) (Some "FFEFEFEF")); ((3, 9), Cell PNone (Some "FFEFEFEF"));
        ((5, 8), Cell (PInt 30) (Some "FFF7F3DF")); ((5, 9), Cell PNone (Some "FFF7F3DF"))]).

(** ** Substring test *)

(** [s.startswith(p)] *)
Fixpoint starts_with (p s : string) : bool :=
  match p, s with
  | EmptyString, _ => true
  | String _ _, EmptyString => false
  | String a p', String b s' => Ascii.eqb a b && starts_with p' s'
  end.

(** [sub in s] *)
Fixpoint contains (sub s : string) : bool :=
  starts_with sub s ||
  match s with
  | EmptyString => false
  | String _ s' => contains sub s'
  end.

(** ** Step 8: TRUNC and SUM formulas of the CPUs sheet *)

(** [str(cell.value) if cell.value else ''] *)
Definition text_or_empty (v : pyvalue) : string :=
  if truthy v then py_str v else EmptyString.

Definition color_gray1 : string := "D6D6D6".
Definition color_gray2 : string := "EFEFEF".
Definition target_colors_i : list string := [color_green; color_gray1; color_gray2].

(** The second loop: the product formula of column I. *)
Definition truncar_row (target_sheet : sheet) (row_idx : Z) : sheet :=
  if color_in (get_cell_color (cell_at target_sheet row_idx 9)) target_colors_i
  then set_value target_sheet row_idx 9
         (PStr ("=TRUNC((G" ++ PyStr.of_int row_idx ++ "*H" ++ PyStr.of_int row_idx ++ "),2)"))
  else target_sheet.

(** The trimmed text of column A on row [k]. *)
Definition label_at (sh : sheet) (k : Z) : string := cell_code (value (cell_at sh k 1)).

(** The rows a composition sums: those labelled as items, inputs or
    auxiliary compositions; in an ORSE detail block, items and inputs. *)
Definition plain_label (s : string) : bool :=
  String.eqb s "Item" || String.eqb s "Insumo" || String.eqb s "Composição Auxiliar".

Definition orse_label (s : string) : bool :=
  String.eqb s "Insumo" || String.eqb s "Item".

(** The search for the ORSE detail header: [j + 2] for the first row [j]
    holding it, [0] when there is none. *)
Fixpoint find_orse_start (sh : sheet) (rows : list Z) : Z :=
  match rows with
  | [] => 0
  | j :: rest =>
      if contains "Detalhamento de Cálculo ORSE" (label_at sh j) then j + 2
      else find_orse_start sh rest
  end.

(** The search for the end of the block over [range(start, last_row + 2)]:
    [last_row] once past the sheet, the row before the first unlabelled
    row otherwise, and [0] when the range is empty. *)
Fixpoint find_block_end (sh : sheet) (is_label : string -> bool) (last_row : Z)
    (ks : list Z) : Z :=
  match ks with
  | [] => 0
  | k :: rest =>
      if last_row <? k then last_row
      else if negb (is_label (label_at sh k)) then k - 1
      else find_block_end sh is_label last_row rest
  end.

(** [start_row_sum] and [end_row_sum] for the composition on [row_idx]. *)
Definition sum_bounds (sh : sheet) (last_row row_idx : Z) : Z * Z :=
  let cell_c_value := text_or_empty (value (cell_at sh row_idx 3)) in
  if contains "ORSE" (PyStr.upper cell_c_value) then
    let start_row_sum := find_orse_start sh (rows_between (row_idx + 1) last_row) in
    if 0 <? start_row_sum
    then (start_row_sum,
          find_block_end sh orse_label last_row (rows_between start_row_sum (last_row + 1)))
    else (start_row_sum, 0)
  else
    let start_row_sum := row_idx + 1 in
    (start_row_sum,
     find_block_end sh plain_label last_row (rows_between start_row_sum (last_row + 1))).

(** The third loop: the sum of a primary composition. *)
Definition soma_row (last_row : Z) (target_sheet : sheet) (row_idx : Z) : sheet :=
  if color_is (get_cell_color (cell_at target_sheet row_idx 8)) color_green then
    let '(start_row_sum, end_row_sum) := sum_bounds target_sheet last_row row_idx in
    if (0 <? start_row_sum) && (start_row_sum <=? end_row_sum)
    then set_value target_sheet row_idx 8
           (PStr ("=SUM(I" ++ PyStr.of_int start_row_sum ++ ":I"
                  ++ PyStr.of_int end_row_sum ++ ")"))
    else set_value target_sheet row_idx 8 (PInt 0)
  else target_sheet.

(** The first loop only shows rows again (row dimensions) and is left
    out. *)
Definition apply_formulas_cpus_sheet (target_sheet : sheet) : sheet :=
  let last_row := max_row target_sheet in
  let sh1 := fold_left truncar_row (rows_between 1 last_row) target_sheet in
  fold_left (soma_row last_row) (rows_between 1 last_row) sh1.

(** ** Step 9: auxiliary compositions refer to their primary composition *)

(** The key of the description in column B. *)
Definition description_key (v : pyvalue) : string :=
  normalize_description (PStr (text_or_empty v)).

(** The first loop: the row of each primary (green) description. *)
Definition green_map_row (sh : sheet) (green_map : gmap string Z) (row_idx : Z)
    : gmap string Z :=
  if color_is (get_cell_color (cell_at sh row_idx 8)) color_green then
    let description := description_key (value (cell_at sh row_idx 2)) in
    if str_is_empty description then green_map
    else <[description := row_idx]> green_map
  else green_map.

(** The second loop: the reference written on an auxiliary (gray) row. *)
Definition third_step_row (green_map : gmap string Z) (target_sheet : sheet) (row_idx : Z)
    : sheet :=
  if negb (color_is (get_cell_color (cell_at target_sheet row_idx 8)) color_gray1)
  then target_sheet
  else
    let description := description_key (value (cell_at target_sheet row_idx 2)) in
    if str_is_empty description then target_sheet
    else
      match green_map !! description with
      | None => target_sheet
      | Some target_row =>
          if target_row =? row_idx then target_sheet
          else set_value target_sheet row_idx 8 (PStr ("=I" ++ PyStr.of_int target_row))
      end.

Definition green_map_of (target_sheet : sheet) : gmap string Z :=
  fold_left (green_map_row target_sheet) (rows_between 1 (max_row target_sheet)) ∅.

Definition apply_third_step_cpus_sheet (target_sheet : sheet) : sheet :=
  let last_row := max_row target_sheet in
  let green_map := green_map_of target_sheet in
  if bool_decide (size green_map = 0%nat) then target_sheet
  else fold_left (third_step_row green_map) (rows_between 1 last_row) target_sheet.


(** A CPUs sheet: a primary composition on row 1 with two inputs, an
    auxiliary composition on row 5 that repeats the description of the
    primary on row 6, which has one item. *)
Definition compositions_sample : sheet :=
  Sheet "Composições" 7
    (list_to_map
       [((1, 1), Cell (PStr "Composição") None);
        ((1, 2), Cell (PStr "Alvenaria de tijolo") None);
        ((1, 3), Cell (PStr "SINAPI") None);
        ((1, 8), Cell PNone (Some "FFDFF0D8")); ((1, 9), Cell PNone (Some "FFDFF0D8"));
        ((2, 1), Cell (PStr "Insumo") None); ((2, 9), Cell PNone (Some "FFEFEFEF"));
        ((3, 1), Cell (PStr " Insumo ") None); ((3, 9), Cell PNone (Some "FFEFEFEF"));
        ((4, 1), Cell PNone None);
        ((5, 1), Cell (PStr "Composição Auxiliar") None);
        ((5, 2), Cell (PStr " argamassa  1:3 ") None);
        ((5, 8), Cell PNone (Some "FFD6D6D6"));
        ((6, 1), Cell (PStr "Composição") None);
        ((6, 2), Cell (PStr "ARGAMASSA 1:3") None);
        ((6, 3), Cell (PStr "SINAPI") None);
        ((6, 8), Cell PNone (Some "FFDFF0D8"));
        ((7, 1), Cell (PStr "Item") None)]).


(** ** Step 14: products in I and J, keys of column A *)

Definition target_colors_os : list string := [color_yellow; color_green].

(** The first loop. *)
Definition product_row (target_sheet : sheet) (row_idx : Z) : sheet :=
  let sh1 :=
    if color_in (get_cell_color (cell_at target_sheet row_idx 9)) target_colors_os
    then set_value target_sheet row_idx 9
           (PStr ("=G" ++ PyStr.of_int row_idx ++ "*F" ++ PyStr.of_int row_idx))
    else target_sheet in
  if color_in (get_cell_color (cell_at sh1 row_idx 10)) target_colors_os
  then set_value sh1 row_idx 10
         (PStr ("=H" ++ PyStr.of_int row_idx ++ "*F" ++ PyStr.of_int row_idx))
  else sh1.

(** What is stored for the result of the key normalisation. *)
Definition key_value (k : option string) : pyvalue :=
  match k with
  | Some t => PStr t
  | None => PNone
  end.

(** The second loop, from row 5 on. *)
Definition normalize_a_row (target_sheet : sheet) (row_idx : Z) : sheet :=
  let original_value := value (cell_at target_sheet row_idx 1) in
  if is_none original_value then target_sheet
  else
    let normalized_value := normalize_sintetico_coluna_a original_value in
    set_value target_sheet row_idx 1 (key_value normalized_value).

Definition apply_sintetico_step_2 (target_sheet : sheet) : sheet :=
  let sh1 := fold_left product_row (rows_between 1 (max_row target_sheet)) target_sheet in
  fold_left normalize_a_row (rows_between 5 (max_row sh1)) sh1.

(** ** Complementary stage: the dot rule of column A *)

(** [normalized != cell_a.value]: a text differs from every value that is
    not the same text. *)
Definition differs (k : option string) (v : pyvalue) : bool :=
  match k, v with
  | Some t, PStr s => negb (String.eqb t s)
  | None, PNone => false
  | _, _ => true
  end.

Definition enforce_row (target_sheet : sheet) (row_idx : Z) : sheet :=
  let cell_a_value := value (cell_at target_sheet row_idx 1) in
  if truthy cell_a_value then
    let normalized := normalize_sintetico_coluna_a cell_a_value in
    if differs normalized cell_a_value
    then set_value target_sheet row_idx 1 (key_value normalized)
    else target_sheet
  else target_sheet.

Definition enforce_sintetico_coluna_a_dot_rule (target_sheet : sheet) : sheet :=
  fold_left enforce_row (rows_between 5 (max_row target_sheet)) target_sheet.

(** A value of column A that both stages leave alone: nothing, or a text
    with neither space nor comma. *)
Definition settled_key (v : pyvalue) : Prop :=
  v = PNone \/ exists t, v = PStr t /\ all_chars no_space_comma t = true.

(** A synthetic sheet with keys to normalise from row 5 on. *)
Definition keys_sample : sheet :=
  Sheet "Orçamento Sintético" 8
    (list_to_map
       [((4, 1), Cell (PStr "Item ") None);
        ((5, 1), Cell (PInt 1) None);
        ((6, 1), Cell (PStr "1 , 1") None);
        ((7, 1), Cell (PFloat (PyFloat float_5_10 "5.1")) None);
        ((7, 9), Cell PNone (Some "FFF7F3DF"));
        ((8, 1), Cell PNone None)]).

(** ** Step 21: the totals over the level-1 items *)




Definition list_is_empty {A} (l : list A) : bool :=
  match l with [] => true | _ => false end.




(** ** Sheet titles of the consolidated workbook *)


Module SheetTitle.

(** [s[:n]], for any integer [n]: a negative [n] counts from the end. *)
Definition slice_to (n : Z) (s : string) : string :=
  if 0 <=? n then PyFloatOps.take (Z.to_nat n) s
  else PyFloatOps.take (Z.to_nat (Z.of_nat (String.length s) + n)) s.

(** [s or d] *)
Definition or_default (s d : string) : string :=
  if str_is_empty s then d else s.

(** [(desired_title or "Planilha").strip()[:31] or "Planilha"] *)
Definition base_title (desired_title : string) : string :=
  or_default (slice_to 31 (PyStr.strip (or_default desired_title "Planilha"))) "Planilha".

(** [f"_{index}"] *)
Definition suffix (index : Z) : string := "_" ++ PyStr.of_int index.

(** [f"{base_title[:31 - len(suffix)]}{suffix}"] *)
Definition candidate (base : string) (index : Z) : string :=
  slice_to (31 - Z.of_nat (String.length (suffix index))) base ++ suffix index.

(** The [while True] loop, run for at most [fuel] iterations. *)
Fixpoint search (fuel : nat) (existing : gset string) (base : string) (index : Z)
    : option string :=
  match fuel with
  | O => None
  | S fuel' =>
      if bool_decide (candidate base index ∈ existing)
      then search fuel' existing base (index + 1)
      else Some (candidate base index)
  end.

End SheetTitle.

(** The loop is given one iteration more than there are titles, which is
    enough for it to return. *)
Definition make_unique_sheet_title (workbook : list sheet) (desired_title : string)
    : option string :=
  let base_title := SheetTitle.base_title desired_title in
  let existing : gset string := list_to_set (map title workbook) in
  if bool_decide (base_title ∈ existing)
  then SheetTitle.search (S (size existing)) existing base_title 2
  else Some base_title.

(** ** Finding the sheet a stage works on *)

Module Workbook.

(** The position of the first sheet that passes the test: the loop over
    [workbook.worksheets] that ends with [break]. *)
Fixpoint find_index (p : sheet -> bool) (workbook : list sheet) : option nat :=
  match workbook with
  | [] => None
  | sh :: rest => if p sh then Some O else option_map S (find_index p rest)
  end.

(** ['CPU' in sheet.title or 'Compos' in sheet.title] *)
Definition is_cpus_title (sh : sheet) : bool :=
  contains "CPU" (title sh) || contains "Compos" (title sh).

(** ['Curva ABC de Insumos' in sheet.title] *)
Definition is_abc_title (sh : sheet) : bool :=
  contains "Curva ABC de Insumos" (title sh).

(** The target of the CPUs stages: the first sheet so titled, and failing
    that the first sheet of the workbook. *)
Definition cpus_target (workbook : list sheet) : option nat :=
  match find_index is_cpus_title workbook with
  | Some i => Some i
  | None => if list_is_empty workbook then None else Some O
  end.

(** The stage run on the target sheet, which is changed in place; the
    workbook is left alone when there is no target. *)
Definition on_target (target : option nat) (stage : sheet -> sheet)
    (workbook : list sheet) : list sheet :=
  match target with
  | Some i =>
      match workbook !! i with
      | Some sh => <[i := stage sh]> workbook
      | None => workbook
      end
  | None => workbook
  end.

End Workbook.

(** Steps 8 and 9 on a workbook. *)
Definition apply_formulas_cpus_workbook (workbook : list sheet) : list sheet :=
  Workbook.on_target (Workbook.cpus_target workbook) apply_formulas_cpus_sheet workbook.

Definition apply_third_step_cpus_workbook (workbook : list sheet) : list sheet :=
  Workbook.on_target (Workbook.cpus_target workbook) apply_third_step_cpus_sheet workbook.

(** Steps 4 and 5 on a workbook. *)
Definition apply_formulas_to_curva_abc_workbook (workbook : list sheet) : list sheet :=
  Workbook.on_target (Workbook.find_index Workbook.is_abc_title workbook)
    apply_formulas_to_curva_abc workbook.

Definition apply_sum_and_formulas_to_curva_abc_workbook (workbook : list sheet) : list sheet :=
  Workbook.on_target (Workbook.find_index Workbook.is_abc_title workbook)
    apply_sum_and_formulas_to_curva_abc workbook.

(** ** Step 11: primary rows without a description are blanked

    Reading a cell that the sheet does not hold gives the default cell;
    the library also creates it, empty, which changes no value and no
    fill colour. *)

(** [sheet.max_column]: the largest column that holds a cell, 1 for a
    sheet without cells. *)
Definition max_column (sh : sheet) : Z :=
  map_fold (fun (k : Z * Z) (_ : cell) acc => Z.max (snd k) acc) 1 (cells sh).

(** The inner loop: [cell.value = None] on columns [1..max_column]. *)
Definition blank_row (target_sheet : sheet) (row_idx : Z) : sheet :=
  fold_left (fun sh col_idx => set_value sh row_idx col_idx PNone)
            (rows_between 1 (max_column target_sheet)) target_sheet.

Definition fifth_step_row (target_sheet : sheet) (row_idx : Z) : sheet :=
  let cell_a := cell_at target_sheet row_idx 1 in
  let cell_d := cell_at target_sheet row_idx 4 in
  if color_is (get_cell_color cell_a) color_green then
    if is_blank (value cell_d) then blank_row target_sheet row_idx
    else target_sheet
  else target_sheet.

(** The rows are visited from the last to the first. *)
Definition apply_fifth_step_cpus_sheet (target_sheet : sheet) : sheet :=
  let last_row := max_row target_sheet in
  fold_left fifth_step_row (rev (rows_between 1 last_row)) target_sheet.

(** A CPUs sheet whose primary row 2 has no description. *)
Definition blank_sample : sheet :=
  Sheet "CPUs" 3
    (list_to_map
       [((1, 1), Cell (PStr "1") (Some "FFDFF0D8")); ((1, 4), Cell (PStr "Muro") None);
        ((2, 1), Cell (PStr "2") (Some "FFDFF0D8")); ((2, 4), Cell (PStr "  ") None);
        ((2, 6), Cell (PInt 4) (Some "FFDFF0D8"));
        ((3, 1), Cell (PStr "3") None); ((3, 6), Cell (PInt 5) None)]).

(** ** Step 6: the sum of column I and the rows below it *)

(** The first loop: the coloured rows of column I and the last of them. *)
Definition scan_column_i (target_sheet : sheet) (acc : list Z * Z) (row_idx : Z) : list Z * Z :=
  let cell_i := cell_at target_sheet row_idx 9 in
  if color_in (get_cell_color cell_i) RangeCollector.target_colors
  then ((fst acc ++ [row_idx])%list, row_idx)
  else acc.

(** [sheet.max_row] read off the cells: the largest row that holds a
    cell, 1 for a sheet without cells. *)
Definition last_cell_row (m : gmap (Z * Z) cell) : Z :=
  map_fold (fun (k : Z * Z) (_ : cell) acc => Z.max (fst k) acc) 1 m.

(** [sheet.delete_rows(idx, amount)] as step 6 calls it, with
    [idx + amount = max_row + 1]: the block of deleted rows ends on the
    last row of the sheet, so its cells are removed and no row below
    moves up.  [max_row] is then read off the cells that are left. *)
Definition delete_rows (sh : sheet) (idx amount : Z) : sheet :=
  let left :=
    filter (fun kv : Z * Z * cell => ~ (idx <= fst (fst kv) < idx + amount)) (cells sh) in
  Sheet (title sh) (last_cell_row left) left.

(** The closing loop of the stage sets borders and alignment only. *)
Definition apply_sum_column_i_and_delete_below (target_sheet : sheet) : sheet :=
  let '(colored_rows, last_colored_row) :=
    fold_left (scan_column_i target_sheet) (rows_between 1 (max_row target_sheet)) ([], 0) in
  let sum_row := last_colored_row + 1 in
  let sh1 :=
    match RangeCollector.sum_formula "I" colored_rows with
    | Some sum_formula => set_value target_sheet sum_row 9 (PStr sum_formula)
    | None => target_sheet
    end in
  let total_rows := max_row sh1 in
  let rows_to_delete := total_rows - sum_row in
  if 0 <? rows_to_delete then delete_rows sh1 (sum_row + 1) rows_to_delete else sh1.

(** The row the sum of column I is written on. *)
Definition sum_row_i (target_sheet : sheet) : Z :=
  snd (fold_left (scan_column_i target_sheet) (rows_between 1 (max_row target_sheet)) ([], 0)) + 1.

(** No cell lies below [max_row]. *)
Definition rows_within (sh : sheet) : Prop :=
  map_Forall (fun (k : Z * Z) (_ : cell) => fst k <= max_row sh) (cells sh).

#[global] Instance rows_within_dec (sh : sheet) : Decision (rows_within sh).
Proof. unfold rows_within. apply map_Forall_dec. intros k _. apply Z_le_dec. Defined.

(** An ABC sheet with two coloured rows in column I and a footer below. *)
Definition abc_tail_sample : sheet :=
  Sheet "Curva ABC de Insumos" 6
    (list_to_map
       [((1, 9), Cell (PStr "Total") None);
        ((2, 9), Cell (PInt 10) (Some "FFD6D6D6"));
        ((3, 9), Cell (PInt 20) (Some "FFEFEFEF"));
        ((5, 1), Cell (PStr "Obs.") None);
        ((6, 9), Cell (PInt 7) None)]).

(** * Properties *)

Example strip_demo : PyStr.strip "  a b  " = "a b".
Proof. reflexivity. Qed.

Example upper_demo : PyStr.upper "d8ecf6 z{`" = "D8ECF6 Z{`".
Proof. reflexivity. Qed.

Example collapse_demo : PyStr.collapse_ws "a  b 	 c" = "a b c".
Proof. reflexivity. Qed.

Example of_int_demo : PyStr.of_int 0 = "0" /\ PyStr.of_int (-12) = "-12" /\ PyStr.of_int 305 = "305".
Proof. repeat split. Qed.

Example collect_demo :
  RangeCollector.collect_ranges "H" [2; 3; 4; 7; 9; 10] = ["H2:H4"; "H7"; "H9:H10"].
Proof. reflexivity. Qed.

Example expand_demo :
  RangeCollector.expand_tokens "H" ["H2:H4"; "H7"; "H9:H10"] = Some [2; 3; 4; 7; 9; 10].
Proof. reflexivity. Qed.

Example color_demo :
  get_cell_color (Cell PNone (Some "FFd8ecf6")) = Some "D8ECF6" /\
  get_cell_color (Cell PNone (Some "00FF")) = None /\
  get_cell_color empty_cell = Some "000000".
Proof. repeat split. Qed.

(** ** Decimal numerals *)

Section Numerals.

Lemma string_of_uint_digits d : all_chars digit_or_minus (NilEmpty.string_of_uint d) = true.
Proof. induction d; simpl; auto. Qed.

Lemma of_int_digits z : all_chars digit_or_minus (PyStr.of_int z) = true.
Proof.
  unfold PyStr.of_int. destruct (Z.to_int z); simpl; apply string_of_uint_digits.
Qed.

Lemma of_int_nonempty z : PyStr.of_int z <> EmptyString.
Proof.
  unfold PyStr.of_int. destruct z as [|p|p]; simpl; try discriminate.
  pose proof (DecimalPos.Unsigned.to_uint_nonnil p) as Hp.
  destruct (Pos.to_uint p); simpl; congruence.
Qed.

Lemma to_int_of_int z : PyStr.to_int (PyStr.of_int z) = Some z.
Proof.
  unfold PyStr.to_int. pose proof (of_int_nonempty z) as Hne.
  destruct (PyStr.of_int z) eqn:E; [congruence|].
  rewrite <- E. unfold PyStr.of_int. rewrite NilEmpty.isi. simpl.
  now rewrite DecimalZ.of_to.
Qed.

End Numerals.

(** ** Range collector *)

Section RangeCollectorFacts.
Import RangeCollector.

Lemma rows_between_empty lo hi : hi < lo -> rows_between lo hi = [].
Proof.
  intros H. unfold rows_between.
  replace (Z.to_nat (hi + 1 - lo)) with O by lia. reflexivity.
Qed.

Lemma rows_between_snoc lo hi :
  lo <= hi + 1 -> rows_between lo (hi + 1) = (rows_between lo hi ++ [hi + 1])%list.
Proof.
  intros H. unfold rows_between.
  replace (Z.to_nat (hi + 1 + 1 - lo)) with (S (Z.to_nat (hi + 1 - lo))) by lia.
  rewrite seq_S, map_app. simpl. f_equal. f_equal. lia.
Qed.

Lemma rows_between_single r : rows_between r r = [r].
Proof.
  unfold rows_between. replace (Z.to_nat (r + 1 - r)) with 1%nat by lia.
  simpl. f_equal. lia.
Qed.

Lemma in_rows_between lo hi r : In r (rows_between lo hi) <-> lo <= r <= hi.
Proof.
  unfold rows_between. rewrite in_map_iff. split.
  - intros (k & <- & Hk). apply in_seq in Hk. lia.
  - intros H. exists (Z.to_nat (r - lo)). split; [cbn beta; lia|]. apply in_seq. lia.
Qed.

Lemma ascending_above e rest x : ascending (e :: rest) -> In x rest -> e < x.
Proof.
  revert e. induction rest as [|y rest IH]; intros e Ha Hin; [destruct Hin|].
  destruct Ha as [Hlt Ha]. destruct Hin as [->|Hin]; [exact Hlt|].
  specialize (IH y Ha Hin). lia.
Qed.

Lemma ascending_tail e rest : ascending (e :: rest) -> ascending rest.
Proof. intros [_ H]. exact H. Qed.

(** Reading back what [token] prints. *)

Lemma strip_prefix_app p s : strip_prefix p (p ++ s) = Some s.
Proof.
  induction p as [|a p IH]; simpl; [now destruct s|].
  now rewrite Ascii.eqb_refl.
Qed.

Lemma split_colon_numeral a rest :
  all_chars digit_or_minus a = true ->
  split_colon (a ++ ":" ++ rest) = (a, Some rest).
Proof.
  induction a as [|c a IH]; simpl; intros H; [reflexivity|].
  apply andb_prop in H as [Hc Ha].
  destruct (Ascii.eqb_spec c ":") as [->|_]; [discriminate Hc|].
  now rewrite (IH Ha).
Qed.

Lemma split_colon_numeral_end a :
  all_chars digit_or_minus a = true -> split_colon a = (a, None).
Proof.
  induction a as [|c a IH]; simpl; intros H; [reflexivity|].
  apply andb_prop in H as [Hc Ha].
  destruct (Ascii.eqb_spec c ":") as [->|_]; [discriminate Hc|].
  now rewrite (IH Ha).
Qed.

Lemma parse_token_token col s e : parse_token col (token col s e) = Some (s, e).
Proof.
  unfold parse_token, token. destruct (Z.eqb_spec s e) as [->|Hne].
  - rewrite strip_prefix_app, split_colon_numeral_end by apply of_int_digits.
    now rewrite to_int_of_int.
  - rewrite strip_prefix_app.
    rewrite split_colon_numeral by apply of_int_digits.
    now rewrite to_int_of_int, strip_prefix_app, to_int_of_int.
Qed.

Lemma expand_tokens_runs col bs :
  expand_tokens col (map (run_token col) bs) = Some (concat (map run_rows bs)).
Proof.
  induction bs as [|[s e] bs IH]; simpl; [reflexivity|].
  rewrite IH. unfold expand_token, run_token. simpl. now rewrite parse_token_token.
Qed.

(** The loop emits the tokens of [runs], after what it was given. *)
Lemma collect_loop_runs col rest ranges s e :
  collect_loop col rest ranges s e = (ranges ++ map (run_token col) (runs rest s e))%list.
Proof.
  revert ranges s e. induction rest as [|r rest IH]; intros ranges s e; simpl.
  - reflexivity.
  - destruct (r =? e + 1); rewrite IH; [reflexivity|].
    now rewrite <- app_assoc.
Qed.

Lemma collect_ranges_runs col r0 rest :
  collect_ranges col (r0 :: rest) = map (run_token col) (runs rest r0 r0).
Proof. unfold collect_ranges. now rewrite collect_loop_runs. Qed.

Lemma runs_rows rest s e :
  s <= e -> ascending (e :: rest) ->
  concat (map run_rows (runs rest s e)) = (rows_between s e ++ rest)%list.
Proof.
  revert s e. induction rest as [|r rest IH]; intros s e Hse Ha; simpl.
  - unfold run_rows. simpl. now rewrite app_nil_r.
  - destruct Ha as [Hlt Ha]. destruct (Z.eqb_spec r (e + 1)) as [->|Hne].
    + rewrite IH by (lia || assumption).
      rewrite rows_between_snoc by lia. now rewrite <- app_assoc.
    + simpl. rewrite IH by (lia || assumption).
      now rewrite rows_between_single.
Qed.

Lemma runs_head rest s e : exists e' tl, runs rest s e = (s, e') :: tl.
Proof.
  revert e. induction rest as [|r rest IH]; intros e; simpl; [eauto|].
  destruct (r =? e + 1); eauto.
Qed.

Lemma runs_gaps rest s e :
  ascending (e :: rest) ->
  forall (i : nat) b1 b2,
    runs rest s e !! i = Some b1 -> runs rest s e !! S i = Some b2 ->
    snd b1 + 1 < fst b2.
Proof.
  revert s e. induction rest as [|r rest IH]; intros s e Ha i b1 b2; simpl.
  - destruct i; discriminate.
  - destruct Ha as [Hlt Ha]. destruct (Z.eqb_spec r (e + 1)) as [->|Hne].
    + now apply IH.
    + destruct i as [|i]; simpl.
      * intros [= <-] H2. destruct (runs_head rest r r) as (e' & tl & E).
        rewrite E in H2. injection H2 as <-. simpl. lia.
      * now apply IH.
Qed.

(** Every run is a block of rows of the input that cannot be extended. *)
Lemma runs_maximal rest s e :
  s <= e -> ascending (e :: rest) ->
  forall b, In b (runs rest s e) ->
    s <= fst b <= snd b /\
    (forall r, fst b <= r <= snd b -> In r (rows_between s e ++ rest)) /\
    ~ In (fst b - 1) (rows_between s e ++ rest) /\
    ~ In (snd b + 1) (rows_between s e ++ rest).
Proof.
  revert s e. induction rest as [|r rest IH]; intros s e Hse Ha b Hb; simpl in Hb.
  - destruct Hb as [<-|[]]. simpl. rewrite app_nil_r. repeat split; try lia.
    + intros r Hr. now apply in_rows_between.
    + rewrite in_rows_between. lia.
    + rewrite in_rows_between. lia.
  - pose proof (fun x => ascending_above e (r :: rest) x Ha) as Habove.
    destruct Ha as [Hlt Ha].
    destruct (Z.eqb_spec r (e + 1)) as [->|Hne].
    + specialize (IH s (e + 1) ltac:(lia) Ha b Hb).
      rewrite rows_between_snoc, <- app_assoc in IH by lia. exact IH.
    + destruct Hb as [<-|Hb]; simpl.
      * repeat split; try lia.
        -- intros x Hx. apply in_or_app. left. now apply in_rows_between.
        -- intros [Hin|Hin]%in_app_or; [apply in_rows_between in Hin; lia|].
           specialize (Habove _ Hin). lia.
        -- intros [Hin|Hin]%in_app_or; [apply in_rows_between in Hin; lia|].
           destruct Hin as [Heq|Hin]; [lia|].
           pose proof (ascending_above r rest (e + 1) Ha Hin). lia.
      * specialize (IH r r ltac:(lia) Ha b Hb) as (Hb1 & Hb2 & Hb3 & Hb4).
        rewrite rows_between_single in Hb2, Hb3, Hb4. simpl in Hb2, Hb3, Hb4.
        repeat split; try lia.
        -- intros x Hx. apply in_or_app. right. now apply Hb2.
        -- intros [Hin|Hin]%in_app_or; [apply in_rows_between in Hin; lia|].
           now apply Hb3.
        -- intros [Hin|Hin]%in_app_or; [apply in_rows_between in Hin; lia|].
           now apply Hb4.
Qed.

Lemma ascending_cons_iff x l :
  ascending (x :: l) <-> (forall y, In y l -> x < y) /\ ascending l.
Proof.
  split.
  - intros H. split; [intros y Hy; now apply (ascending_above x l)|now apply ascending_tail in H].
  - intros [Hall Hl]. split; [|exact Hl]. destruct l as [|y l]; [exact I|].
    apply Hall. now left.
Qed.

Lemma ascending_filter (P : Z -> Prop) `{forall x, Decision (P x)} l :
  ascending l -> ascending (filter P l).
Proof.
  induction l as [|x l IH]; [intros _; exact I|].
  intros [Hall Hl]%ascending_cons_iff. rewrite filter_cons.
  destruct (decide (P x)); [|now apply IH].
  apply ascending_cons_iff. split; [|now apply IH].
  intros y Hy. apply Hall. apply list_elem_of_In in Hy.
  apply list_elem_of_filter in Hy as [_ Hy]. now apply list_elem_of_In.
Qed.

Lemma rows_between_ascending lo hi : ascending (rows_between lo hi).
Proof.
  unfold rows_between. generalize (Z.to_nat (hi + 1 - lo)) as n. intros n.
  revert lo. induction n as [|n IH]; intros lo; [exact I|].
  cbn [seq map]. apply ascending_cons_iff. split.
  - intros y Hy. apply in_map_iff in Hy as (k & <- & Hk). apply in_seq in Hk. lia.
  - rewrite <- seq_shift, map_map.
    rewrite (map_ext _ (fun k => (lo + 1) + Z.of_nat k)) by (intros; lia). apply IH.
Qed.

(** The rows both stages hand to the collector are sorted and distinct. *)
Lemma colored_rows_ascending sh column : ascending (colored_rows sh column).
Proof. apply ascending_filter, rows_between_ascending. Qed.

End RangeCollectorFacts.

Lemma lookup_map_inv {A B} (f : A -> B) (l : list A) (i : nat) (y : B) :
  map f l !! i = Some y -> exists x, l !! i = Some x /\ y = f x.
Proof.
  revert i. induction l as [|a l IH]; intros [|i]; simpl; try discriminate.
  - intros [= <-]. eauto.
  - apply IH.
Qed.

(** C1. For every strictly ascending list of rows, the tokens the range
    collector emits expand back, in order, to exactly the input rows; any
    two neighbouring tokens are separated by a gap; and every token
    denotes a block [start..end] of input rows that no input row extends
    on either side. *)
Theorem range_collector_exact_and_maximal (col : string) (rows : list Z) :
  RangeCollector.ascending rows ->
  let toks := RangeCollector.collect_ranges col rows in
  RangeCollector.expand_tokens col toks = Some rows /\
  (forall (i : nat) t1 t2,
      toks !! i = Some t1 -> toks !! S i = Some t2 ->
      RangeCollector.separated col t1 t2) /\
  (forall t, In t toks ->
      exists s e, RangeCollector.parse_token col t = Some (s, e) /\ s <= e /\
        (forall r, s <= r <= e -> In r rows) /\
        ~ In (s - 1) rows /\ ~ In (e + 1) rows).
Proof.
  intros Ha toks. subst toks. destruct rows as [|r0 rest].
  - simpl. split; [reflexivity|]. split; [intros [|i]; discriminate|intros t []].
  - rewrite collect_ranges_runs.
    assert (Hone : (rows_between r0 r0 ++ rest)%list = r0 :: rest)
      by now rewrite rows_between_single.
    split; [|split].
    + rewrite expand_tokens_runs, runs_rows by (lia || assumption). now rewrite Hone.
    + intros i t1 t2 H1 H2.
      apply lookup_map_inv in H1 as ([s1 e1] & H1 & ->).
      apply lookup_map_inv in H2 as ([s2 e2] & H2 & ->).
      exists s1, e1, s2, e2. unfold RangeCollector.run_token. simpl.
      rewrite !parse_token_token. repeat split.
      exact (runs_gaps rest r0 r0 Ha i _ _ H1 H2).
    + intros t Ht. apply in_map_iff in Ht as ([s e] & <- & Hb).
      exists s, e. unfold RangeCollector.run_token. simpl.
      rewrite parse_token_token. split; [reflexivity|].
      destruct (runs_maximal rest r0 r0 ltac:(lia) Ha _ Hb) as (Hb1 & Hb2 & Hb3 & Hb4).
      rewrite Hone in Hb2, Hb3, Hb4. simpl in Hb1. repeat split; try lia; assumption.
Qed.

Lemma range_collector_exact_and_maximal_witness :
  RangeCollector.expand_tokens "H"
    (RangeCollector.collect_ranges "H" [2; 3; 4; 7; 9; 10]) = Some [2; 3; 4; 7; 9; 10].
Proof.
  apply (range_collector_exact_and_maximal "H" [2; 3; 4; 7; 9; 10]).
  simpl. lia.
Defined.

(** ** Text primitives *)

Section TextFacts.

Lemma upper_length s : String.length (PyStr.upper s) = String.length s.
Proof. induction s; simpl; congruence. Qed.

Lemma drop_length n s : String.length (PyStr.drop n s) = (String.length s - n)%nat.
Proof.
  revert s. induction n as [|n IH]; intros [|c s]; simpl; auto.
Qed.

Lemma all_chars_drop p n s : all_chars p s = true -> all_chars p (PyStr.drop n s) = true.
Proof.
  revert s. induction n as [|n IH]; intros [|c s]; simpl; auto.
  intros [_ H]%andb_prop. auto.
Qed.

Lemma upper_char_hex c : is_hex_char c = true -> is_upper_hex_char (PyStr.upper_char c) = true.
Proof.
  destruct c as [[|] [|] [|] [|] [|] [|] [|] [|]]; vm_compute; congruence.
Qed.

Lemma upper_hex s :
  all_chars is_hex_char s = true -> all_chars is_upper_hex_char (PyStr.upper s) = true.
Proof.
  induction s as [|c s IH]; simpl; [reflexivity|].
  intros [Hc Hs]%andb_prop. now rewrite upper_char_hex, IH.
Qed.

End TextFacts.

(** ** Style/Colour model *)

(** C10. The fill-colour extraction returns nothing or a text of exactly
    six characters: the last six, uppercased, of an eight-character source,
    the whole uppercased six-character source, and nothing for any other
    length (['00FF'] included) or for a missing colour.  When the source,
    as openpyxl guarantees for an RGB value, consists of hexadecimal
    digits, the six characters are uppercase hexadecimal digits. *)
Theorem get_cell_color_six_upper_hex (c : cell) :
  (forall s, fill_rgb c = Some s ->
     (String.length s = 8 \/ String.length s = 6)%nat ->
     all_chars is_hex_char s = true) ->
  (get_cell_color c = None \/
   exists t, get_cell_color c = Some t /\ String.length t = 6%nat /\
             all_chars is_upper_hex_char t = true) /\
  (forall s, fill_rgb c = Some s -> String.length s = 8%nat ->
     get_cell_color c = Some (PyStr.upper (PyStr.drop 2 s))) /\
  (forall s, fill_rgb c = Some s -> String.length s = 6%nat ->
     get_cell_color c = Some (PyStr.upper s)) /\
  (forall s, fill_rgb c = Some s ->
     String.length s <> 8%nat -> String.length s <> 6%nat ->
     get_cell_color c = None) /\
  (fill_rgb c = None -> get_cell_color c = None) /\
  (forall t, get_cell_color c = Some t -> String.length t = 6%nat) /\
  get_cell_color (Cell (value c) (Some "00FF")) = None.
Proof.
  intros Hhex. destruct c as [v [s|]]; unfold get_cell_color; cbn [fill_rgb value] in *.
  2: { repeat split; auto; try discriminate. }
  assert (Hcases : (String.length s = 8 \/ String.length s = 6 \/
                    (String.length s <> 8 /\ String.length s <> 6))%nat) by lia.
  destruct Hcases as [H8|[H6|[N8 N6]]].
  - rewrite (proj2 (Nat.eqb_eq _ _) H8).
    assert (L : String.length (PyStr.upper (PyStr.drop 2 s)) = 6%nat)
      by (rewrite upper_length, drop_length; lia).
    repeat split; try congruence.
    right. eexists. split; [reflexivity|]. split; [exact L|].
      apply upper_hex, all_chars_drop. apply Hhex; auto.
  - assert (E8 : (String.length s =? 8)%nat = false) by (apply Nat.eqb_neq; lia).
    rewrite E8, (proj2 (Nat.eqb_eq _ _) H6).
    assert (L : String.length (PyStr.upper s) = 6%nat) by (rewrite upper_length; lia).
    repeat split; try congruence.
    right. eexists. split; [reflexivity|]. split; [exact L|].
      apply upper_hex. apply Hhex; auto.
  - rewrite (proj2 (Nat.eqb_neq _ _) N8), (proj2 (Nat.eqb_neq _ _) N6).
    repeat split; auto; try congruence; try discriminate.
Qed.

Lemma get_cell_color_six_upper_hex_witness :
  get_cell_color (Cell PNone (Some "ffd8ecf6")) = Some "D8ECF6".
Proof.
  refine (proj1 (proj2 (get_cell_color_six_upper_hex
                          (Cell PNone (Some "ffd8ecf6")) _)) "ffd8ecf6" _ _).
  - intros s [= <-] _. reflexivity.
  - reflexivity.
  - reflexivity.
Defined.

(** ** Description normalisation *)

Section NormalizeFacts.








Lemma lstrip_no_lead s : no_lead (PyStr.lstrip s) = true.
Proof.
  induction s as [|c s IH]; simpl; [reflexivity|].
  destruct (PyStr.isspace c) eqn:E; [exact IH|]. simpl. now rewrite E.
Qed.

Lemma lstrip_fixed s : no_lead s = true -> PyStr.lstrip s = s.
Proof.
  destruct s as [|c s]; simpl; [reflexivity|].
  now intros ->%negb_true_iff.
Qed.

Lemma rstrip_no_trail s : no_trail (PyStr.rstrip s) = true.
Proof.
  induction s as [|c s IH]; simpl; [reflexivity|].
  destruct (PyStr.rstrip s) as [|c' r] eqn:E.
  - destruct (PyStr.isspace c) eqn:Ec; simpl; [reflexivity|now rewrite Ec].
  - exact IH.
Qed.

Lemma rstrip_fixed s : no_trail s = true -> PyStr.rstrip s = s.
Proof.
  induction s as [|c s IH]; simpl; [reflexivity|].
  destruct s as [|c' s'].
  - simpl. now intros ->%negb_true_iff.
  - intros H. now rewrite (IH H).
Qed.

Lemma rstrip_no_lead s : no_lead s = true -> no_lead (PyStr.rstrip s) = true.
Proof.
  destruct s as [|c s]; simpl; [reflexivity|].
  intros Hc. destruct (PyStr.rstrip s); [|exact Hc].
  apply negb_true_iff in Hc. rewrite Hc. simpl. now rewrite Hc.
Qed.

Lemma strip_no_lead s : no_lead (PyStr.strip s) = true.
Proof. apply rstrip_no_lead, lstrip_no_lead. Qed.

Lemma strip_no_trail s : no_trail (PyStr.strip s) = true.
Proof. apply rstrip_no_trail. Qed.

Lemma strip_fixed s : no_lead s = true -> no_trail s = true -> PyStr.strip s = s.
Proof. intros Hl Ht. unfold PyStr.strip. now rewrite (lstrip_fixed s Hl), rstrip_fixed. Qed.

Lemma strip_idem s : PyStr.strip (PyStr.strip s) = PyStr.strip s.
Proof. apply strip_fixed; [apply strip_no_lead|apply strip_no_trail]. Qed.

(** Collapsing white space. *)






(** Uppercasing keeps the shape. *)






End NormalizeFacts.


(** ** Hierarchy level *)





(** ** Ambiguity scan *)

Section ScanFacts.








End ScanFacts.



Example outline_demo :
  map (level_at outline_sheet) [1; 2; 3; 4; 5] = [1; 2; 2; 3; 1] /\
  children_of outline_sheet 1 = [2; 3] /\
  children_of outline_sheet 5 = [] /\
  value (cell_at (apply_sintetico_sum_hierarchy outline_sheet) 1 9) = PStr "=SUM(I2,I3)" /\
  value (cell_at (apply_sintetico_sum_hierarchy outline_sheet) 3 10) = PStr "=SUM(J4)" /\
  value (cell_at (apply_sintetico_sum_hierarchy outline_sheet) 5 9) = PInt 7.
Proof. vm_compute. repeat split. Qed.

(** ** Sheets and row loops *)

Section SheetFacts.

Lemma cell_at_set_value_same sh r c v :
  cell_at (set_value sh r c v) r c = Cell v (fill_rgb (cell_at sh r c)).
Proof. unfold cell_at at 1, set_value. simpl. now rewrite lookup_insert_eq. Qed.

Lemma cell_at_set_value_other sh r c v r' c' :
  (r', c') <> (r, c) -> cell_at (set_value sh r c v) r' c' = cell_at sh r' c'.
Proof.
  intros H. unfold cell_at, set_value. simpl. now rewrite lookup_insert_ne by congruence.
Qed.

Lemma map_seq_from lo a n :
  map (fun k => lo + Z.of_nat k) (seq a n)
  = map (fun k => lo + Z.of_nat a + Z.of_nat k) (seq 0 n).
Proof.
  revert a. induction n as [|n IH]; intros a; simpl; [reflexivity|].
  f_equal; [lia|]. rewrite (IH (S a)), <- seq_shift, map_map.
  apply map_ext. intros k. lia.
Qed.

Lemma rows_between_split lo hi r :
  lo <= r <= hi ->
  rows_between lo hi = (rows_between lo (r - 1) ++ r :: rows_between (r + 1) hi)%list.
Proof.
  intros H. unfold rows_between.
  replace (Z.to_nat (hi + 1 - lo))
    with (Z.to_nat (r - 1 + 1 - lo) + S (Z.to_nat (hi + 1 - (r + 1))))%nat by lia.
  rewrite seq_app, map_app. f_equal.
  rewrite map_seq_from. simpl. f_equal; [lia|].
  rewrite <- seq_shift, map_map. apply map_ext. intros k. lia.
Qed.

End SheetFacts.

(** A loop over rows whose body writes to its own row only, reads besides
    that row only what no iteration changes ([kept]), and so leaves on
    each row what the body computes for it on the initial sheet. *)
Section RowLoop.

Variable step : sheet -> Z -> sheet.
Variable kept : sheet -> sheet -> Prop.
Hypothesis kept_refl : forall sh, kept sh sh.
Hypothesis kept_trans : forall a b c, kept a b -> kept b c -> kept a c.
Hypothesis step_kept : forall sh r, kept sh (step sh r).
Hypothesis step_other_rows :
  forall sh r r' c, r' <> r -> cell_at (step sh r) r' c = cell_at sh r' c.
Hypothesis step_determined :
  forall sh1 sh2 r,
    kept sh1 sh2 -> (forall c, cell_at sh2 r c = cell_at sh1 r c) ->
    forall c, cell_at (step sh2 r) r c = cell_at (step sh1 r) r c.

Lemma loop_kept rows sh : kept sh (fold_left step rows sh).
Proof.
  revert sh. induction rows as [|r rows IH]; intros sh; simpl; [apply kept_refl|].
  eapply kept_trans; [apply step_kept|apply IH].
Qed.

Lemma loop_untouched rows sh r c :
  ~ In r rows -> cell_at (fold_left step rows sh) r c = cell_at sh r c.
Proof.
  revert sh. induction rows as [|r' rows IH]; intros sh Hn; simpl; [reflexivity|].
  rewrite IH by (intros H; apply Hn; now right).
  apply step_other_rows. intros ->. apply Hn. now left.
Qed.

Lemma loop_row before after sh r c :
  ~ In r before -> ~ In r after ->
  cell_at (fold_left step (before ++ r :: after) sh) r c = cell_at (step sh r) r c.
Proof.
  intros Hb Ha. rewrite fold_left_app. simpl.
  rewrite loop_untouched by exact Ha.
  apply step_determined; [apply loop_kept|].
  intros c'. now apply loop_untouched.
Qed.

Lemma loop_rows_between lo hi sh r c :
  lo <= r <= hi ->
  cell_at (fold_left step (rows_between lo hi) sh) r c = cell_at (step sh r) r c.
Proof.
  intros H. rewrite (rows_between_split lo hi r H).
  apply loop_row; rewrite in_rows_between; lia.
Qed.

Lemma loop_rows_between_outside lo hi sh r c :
  ~ lo <= r <= hi ->
  cell_at (fold_left step (rows_between lo hi) sh) r c = cell_at sh r c.
Proof.
  intros H. apply loop_untouched. now rewrite in_rows_between.
Qed.

End RowLoop.

(** ** Lookup strategy (steps 10 and 17) *)

Section LookupFacts.







Lemma fourth_step_row_other abc prob sh r r' c :
  r' <> r -> cell_at (fourth_step_row abc prob sh r) r' c = cell_at sh r' c.
Proof.
  intros H. unfold fourth_step_row.
  destruct (color_is _ color_gray); [|reflexivity].
  destruct (bool_decide _); apply cell_at_set_value_other; congruence.
Qed.

Lemma fourth_step_row_determined abc prob sh1 sh2 r :
  (forall c, cell_at sh2 r c = cell_at sh1 r c) ->
  forall c, cell_at (fourth_step_row abc prob sh2 r) r c
            = cell_at (fourth_step_row abc prob sh1 r) r c.
Proof.
  intros H c. unfold fourth_step_row. rewrite !H.
  destruct (color_is _ color_gray); [|apply H].
  destruct (bool_decide _); (destruct (decide (c = 8)) as [->|Hc];
    [rewrite !cell_at_set_value_same, H; reflexivity
    |rewrite !cell_at_set_value_other by congruence; apply H]).
Qed.

Lemma step_4_row_other cpus abc prob sh r r' c :
  r' <> r -> cell_at (sintetico_step_4_row cpus abc prob sh r) r' c = cell_at sh r' c.
Proof.
  intros H. unfold sintetico_step_4_row.
  destruct (color_is _ color_green); [apply cell_at_set_value_other; congruence|].
  destruct (color_is _ color_yellow); [|reflexivity].
  destruct (bool_decide _); apply cell_at_set_value_other; congruence.
Qed.

Lemma step_4_row_determined cpus abc prob sh1 sh2 r :
  (forall c, cell_at sh2 r c = cell_at sh1 r c) ->
  forall c, cell_at (sintetico_step_4_row cpus abc prob sh2 r) r c
            = cell_at (sintetico_step_4_row cpus abc prob sh1 r) r c.
Proof.
  intros H c. unfold sintetico_step_4_row. rewrite !H.
  assert (Hset : forall v, cell_at (set_value sh2 r 7 v) r c = cell_at (set_value sh1 r 7 v) r c).
  { intros v. destruct (decide (c = 7)) as [->|Hc].
    - now rewrite !cell_at_set_value_same, H.
    - rewrite !cell_at_set_value_other by congruence. apply H. }
  destruct (color_is _ color_green); [apply Hset|].
  destruct (color_is _ color_yellow); [|apply H].
  destruct (bool_decide _); apply Hset.
Qed.

Lemma fourth_step_at cpus abc prob r c :
  1 <= r <= max_row cpus ->
  cell_at (apply_fourth_step_cpus_sheet cpus abc prob) r c
  = cell_at (fourth_step_row abc prob cpus r) r c.
Proof.
  intros H. unfold apply_fourth_step_cpus_sheet.
  apply (loop_rows_between (fourth_step_row abc prob) (fun _ _ => True)); auto.
  - intros. now apply fourth_step_row_other.
  - intros. now apply fourth_step_row_determined.
Qed.

Lemma step_4_at os cpus abc prob r c :
  1 <= r <= max_row os ->
  cell_at (apply_sintetico_step_4 os cpus abc prob) r c
  = cell_at (sintetico_step_4_row cpus abc prob os r) r c.
Proof.
  intros H. unfold apply_sintetico_step_4.
  apply (loop_rows_between (sintetico_step_4_row cpus abc prob) (fun _ _ => True)); auto.
  - intros. now apply step_4_row_other.
  - intros. now apply step_4_row_determined.
Qed.


End LookupFacts.

Example abc_sample_scan : _find_problematic_abc_codes abc_sample = {["00001"]}.
Proof. vm_compute. reflexivity. Qed.



(** ** Hierarchical aggregator *)

Section HierarchyFacts.







End HierarchyFacts.

Section HierarchyLoop.

Lemma scan_children_same_column_a sh1 sh2 L rows :
  same_column_a sh1 sh2 -> scan_children sh2 L rows = scan_children sh1 L rows.
Proof.
  intros H. induction rows as [|r rows IH]; simpl; [reflexivity|].
  unfold level_at. now rewrite H, IH.
Qed.

Lemma sum_hierarchy_row_at last sh r' r c :
  r' <> r \/ (c <> 9 /\ c <> 10) ->
  cell_at (sum_hierarchy_row last sh r) r' c = cell_at sh r' c.
Proof.
  intros H. unfold sum_hierarchy_row.
  destruct (color_is _ color_blue); [|reflexivity].
  destruct (_ =? -1); [reflexivity|].
  destruct (scan_children _ _ _); [reflexivity|].
  rewrite !cell_at_set_value_other; [reflexivity| |]; intros [= -> ->]; lia.
Qed.

Lemma sum_hierarchy_row_determined last sh1 sh2 r :
  same_column_a sh1 sh2 -> (forall c, cell_at sh2 r c = cell_at sh1 r c) ->
  forall c, cell_at (sum_hierarchy_row last sh2 r) r c
            = cell_at (sum_hierarchy_row last sh1 r) r c.
Proof.
  intros Hk H c. unfold sum_hierarchy_row.
  rewrite !H, (scan_children_same_column_a sh1 sh2) by exact Hk.
  destruct (color_is _ color_blue); [|apply H].
  destruct (_ =? -1); [apply H|].
  destruct (scan_children _ _ _) as [|k ks]; [apply H|].
  destruct (decide (c = 10)) as [->|H10].
  { now rewrite !cell_at_set_value_same, !cell_at_set_value_other, H by congruence. }
  rewrite !(cell_at_set_value_other _ r 10) by congruence.
  destruct (decide (c = 9)) as [->|H9].
  { now rewrite !cell_at_set_value_same, H. }
  rewrite !cell_at_set_value_other by congruence. apply H.
Qed.

Lemma sum_hierarchy_at sh r c :
  1 <= r <= max_row sh ->
  cell_at (apply_sintetico_sum_hierarchy sh) r c
  = cell_at (sum_hierarchy_row (max_row sh) sh r) r c.
Proof.
  intros H. unfold apply_sintetico_sum_hierarchy.
  apply (loop_rows_between (sum_hierarchy_row (max_row sh)) same_column_a);
    unfold same_column_a; auto.
  - intros a b c0 H1 H2 k. now rewrite H2, H1.
  - intros s k k'. apply sum_hierarchy_row_at. right. lia.
  - intros s k k' c0 Hk. apply sum_hierarchy_row_at. now left.
  - intros. now apply sum_hierarchy_row_determined.
Qed.

Lemma sum_hierarchy_outside sh r c :
  ~ 1 <= r <= max_row sh ->
  cell_at (apply_sintetico_sum_hierarchy sh) r c = cell_at sh r c.
Proof.
  intros H. unfold apply_sintetico_sum_hierarchy.
  apply loop_untouched; [|now rewrite in_rows_between].
  intros s k k' c0 Hk. apply sum_hierarchy_row_at. now left.
Qed.

End HierarchyLoop.





(** ** Code comparison *)

Section CodeKeyFacts.

Lemma append_cons c s t : (String c s ++ t)%string = String c (s ++ t)%string.
Proof. reflexivity. Qed.

Lemma lstrip_blank l : all_chars PyStr.isspace l = true -> PyStr.lstrip l = EmptyString.
Proof.
  induction l as [|c l IH]; simpl; [reflexivity|].
  intros [Hc Hl]%andb_prop. rewrite Hc. auto.
Qed.








End CodeKeyFacts.



(** ** Hierarchical key normalisation *)

Example format_g_samples :
  PyFloatOps.format_g (S754_finite false 4503599627370496 (-53)) = "0.5" /\
  PyFloatOps.format_g (S754_finite false 5302427037204480 (-32)) = "1.23457e+06" /\
  PyFloatOps.format_g (S754_finite true 7284250299826428 (-69)) = "-1.234e-05" /\
  PyFloatOps.format_g (S754_finite false 8483866079657984 (-36)) = "123456" /\
  PyFloatOps.format_g (S754_finite false 4503600077730459 (-52)) = "1".
Proof. vm_compute. repeat split. Qed.

(** C8. The key normalisation maps the text ['3 , 2'] to ['3.2'], through
    ['3,2'] once the spaces are removed; an integer to its decimal
    numeral, so 5 to ['5']; a float with an integral value to the numeral
    of that integer, so 5.0 to ['5']; and any other float to its
    general-format text, so 5.10 to ['5.1']. *)
Theorem normalize_sintetico_coluna_a_cases :
  PyStr.replace_char " " EmptyString "3 , 2" = "3,2" /\
  normalize_sintetico_coluna_a (PStr "3 , 2") = Some "3.2" /\
  normalize_sintetico_coluna_a (PInt 5) = Some "5" /\
  (forall repr, normalize_sintetico_coluna_a (PFloat (PyFloat float_5_0 repr)) = Some "5") /\
  (forall repr, normalize_sintetico_coluna_a (PFloat (PyFloat float_5_10 repr)) = Some "5.1") /\
  (forall z, normalize_sintetico_coluna_a (PInt z) = Some (PyStr.of_int z)) /\
  (forall f, PyFloatOps.is_integer (fl_val f) = true ->
     normalize_sintetico_coluna_a (PFloat f)
     = Some (PyStr.of_int (PyFloatOps.to_int (fl_val f)))) /\
  (forall f, PyFloatOps.is_integer (fl_val f) = false ->
     normalize_sintetico_coluna_a (PFloat f) = Some (PyFloatOps.format_g (fl_val f))).
Proof.
  split; [reflexivity|]. split; [reflexivity|]. split; [reflexivity|].
  split; [intros repr; vm_compute; reflexivity|].
  split; [intros repr; vm_compute; reflexivity|].
  split; [reflexivity|].
  split; intros f H; simpl; now rewrite H.
Qed.

(** * Further properties *)

(** ** Key normalisation: shape of the result *)

Section KeyShapeFacts.

Lemma all_chars_app p a b :
  all_chars p (a ++ b) = all_chars p a && all_chars p b.
Proof.
  induction a as [|c a IH]; [reflexivity|].
  rewrite append_cons. simpl. now rewrite IH, andb_assoc.
Qed.

Lemma all_chars_impl (p q : ascii -> bool) s :
  (forall c, p c = true -> q c = true) -> all_chars p s = true -> all_chars q s = true.
Proof.
  intros H. induction s as [|c s IH]; simpl; [reflexivity|].
  intros [Hc Hs]%andb_prop. now rewrite (H c Hc), IH.
Qed.

Lemma all_chars_take p n s : all_chars p s = true -> all_chars p (PyFloatOps.take n s) = true.
Proof.
  revert s. induction n as [|n IH]; intros [|c s]; simpl; auto.
  intros [Hc Hs]%andb_prop. now rewrite Hc, IH.
Qed.

Lemma all_chars_rstrip_zeros p s :
  all_chars p s = true -> all_chars p (PyFloatOps.rstrip_zeros s) = true.
Proof.
  induction s as [|c s IH]; simpl; [reflexivity|].
  intros [Hc Hs]%andb_prop. specialize (IH Hs).
  destruct (PyFloatOps.rstrip_zeros s) as [|c' r].
  - destruct (Ascii.eqb c "0"); simpl; [reflexivity|now rewrite Hc].
  - simpl in *. now rewrite Hc, IH.
Qed.

Lemma all_chars_zeros n : all_chars no_space_comma (PyFloatOps.zeros n) = true.
Proof. induction n; simpl; auto. Qed.

Lemma digit_no_space_comma c : digit_or_minus c = true -> no_space_comma c = true.
Proof. destruct c as [[|] [|] [|] [|] [|] [|] [|] [|]]; vm_compute; congruence. Qed.

Lemma of_int_no_space_comma z : all_chars no_space_comma (PyStr.of_int z) = true.
Proof. apply (all_chars_impl digit_or_minus); [apply digit_no_space_comma|apply of_int_digits]. Qed.

Lemma exponent_text_no_space_comma x :
  all_chars no_space_comma (PyFloatOps.exponent_text x) = true.
Proof.
  unfold PyFloatOps.exponent_text.
  destruct (x <? 0), (Z.abs x <? 10);
    rewrite ?all_chars_app, ?of_int_no_space_comma; reflexivity.
Qed.

Lemma rendered_digits_no_space_comma digits x :
  all_chars no_space_comma digits = true ->
  all_chars no_space_comma
    (if (-4 <=? x) && (x <? 6) then
       if 0 <=? x then
         match PyFloatOps.rstrip_zeros (PyStr.drop (Z.to_nat (x + 1)) digits) with
         | EmptyString => PyFloatOps.take (Z.to_nat (x + 1)) digits
         | String a s => PyFloatOps.take (Z.to_nat (x + 1)) digits ++ "." ++ String a s
         end
       else "0." ++ PyFloatOps.zeros (Z.to_nat (- x - 1)) ++ PyFloatOps.rstrip_zeros digits
     else
       match PyFloatOps.rstrip_zeros (PyStr.drop 1 digits) with
       | EmptyString => PyFloatOps.take 1 digits ++ PyFloatOps.exponent_text x
       | String a s =>
           PyFloatOps.take 1 digits ++ "." ++ String a s ++ PyFloatOps.exponent_text x
       end) = true.
Proof.
  intros Hd.
  destruct ((-4 <=? x) && (x <? 6)); [destruct (0 <=? x)|].
  - pose proof (all_chars_rstrip_zeros _ _
                  (all_chars_drop _ (Z.to_nat (x + 1)) _ Hd)) as Hf.
    destruct (PyFloatOps.rstrip_zeros _); [now apply all_chars_take|].
    rewrite !all_chars_app, Hf, all_chars_take by exact Hd. reflexivity.
  - rewrite !all_chars_app, all_chars_zeros, all_chars_rstrip_zeros by exact Hd.
    reflexivity.
  - pose proof (all_chars_rstrip_zeros _ _ (all_chars_drop _ 1 _ Hd)) as Hf.
    destruct (PyFloatOps.rstrip_zeros _);
      rewrite !all_chars_app, ?Hf, all_chars_take, exponent_text_no_space_comma by exact Hd;
      reflexivity.
Qed.

Lemma format_g_pos_no_space_comma num den :
  all_chars no_space_comma (PyFloatOps.format_g_pos num den) = true.
Proof.
  unfold PyFloatOps.format_g_pos.
  destruct (_ =? 10 ^ 6); cbv zeta beta iota;
    apply rendered_digits_no_space_comma, of_int_no_space_comma.
Qed.

Lemma format_g_no_space_comma x : all_chars no_space_comma (PyFloatOps.format_g x) = true.
Proof.
  destruct x as [[|]|[|]| |[|] m e]; simpl; try reflexivity.
  - change (all_chars no_space_comma ("-" ++ PyFloatOps.format_g_pos
              (Z.pos m * 2 ^ Z.max e 0) (2 ^ Z.max (- e) 0)) = true).
    now rewrite all_chars_app, format_g_pos_no_space_comma.
  - apply format_g_pos_no_space_comma.
Qed.

Lemma replace_space_no_space s :
  all_chars (fun c => negb (Ascii.eqb c " ")) (PyStr.replace_char " " EmptyString s) = true.
Proof.
  induction s as [|c s IH]; simpl; [reflexivity|].
  destruct (Ascii.eqb c " ") eqn:E; [exact IH|]. simpl. now rewrite E.
Qed.

Lemma replace_comma_no_space_comma s :
  all_chars (fun c => negb (Ascii.eqb c " ")) s = true ->
  all_chars no_space_comma (PyStr.replace_char "," "." s) = true.
Proof.
  induction s as [|c s IH]; simpl; [reflexivity|].
  intros [Hc Hs]%andb_prop. destruct (Ascii.eqb c ",") eqn:E.
  - change (all_chars no_space_comma (String "." (PyStr.replace_char "," "." s)) = true).
    simpl. now apply IH.
  - simpl. unfold no_space_comma at 1. rewrite Hc, E. simpl. now apply IH.
Qed.

Lemma replace_char_absent old new s :
  all_chars (fun c => negb (Ascii.eqb c old)) s = true -> PyStr.replace_char old new s = s.
Proof.
  induction s as [|c s IH]; simpl; [reflexivity|].
  intros [Hc Hs]%andb_prop. apply negb_true_iff in Hc. rewrite Hc. now rewrite IH.
Qed.

Lemma normalize_key_fixed t :
  all_chars no_space_comma t = true -> normalize_sintetico_coluna_a (PStr t) = Some t.
Proof.
  intros H. unfold normalize_sintetico_coluna_a.
  rewrite (replace_char_absent " ").
  2: { apply (all_chars_impl no_space_comma); [|exact H].
       intros c [Hc _]%andb_prop. exact Hc. }
  destruct t as [|c t]; [reflexivity|]. cbn [str_is_empty].
  rewrite (replace_char_absent ","); [reflexivity|].
  apply (all_chars_impl no_space_comma); [|exact H].
  intros c0 [_ Hc]%andb_prop. exact Hc.
Qed.

Lemma normalize_key_shape v t :
  normalize_sintetico_coluna_a v = Some t -> all_chars no_space_comma t = true.
Proof.
  destruct v as [|[|]|z|f|s]; simpl; try discriminate.
  - now intros [= <-].
  - now intros [= <-].
  - intros [= <-]. apply of_int_no_space_comma.
  - destruct (PyFloatOps.is_integer (fl_val f)); intros [= <-];
      [apply of_int_no_space_comma|apply format_g_no_space_comma].
  - destruct (str_is_empty _); intros [= <-]; [reflexivity|].
    apply replace_comma_no_space_comma, replace_space_no_space.
Qed.

End KeyShapeFacts.

(** X1. Whatever the value, the key that [normalize_sintetico_coluna_a]
    returns contains neither a space nor a comma, and normalising that
    key again returns it unchanged; nothing is returned for [None] only. *)
Theorem normalize_key_clean_and_stable (v : pyvalue) (t : string) :
  normalize_sintetico_coluna_a v = Some t ->
  all_chars no_space_comma t = true /\
  normalize_sintetico_coluna_a (PStr t) = Some t /\
  (forall w, normalize_sintetico_coluna_a w = None <-> w = PNone).
Proof.
  intros H. pose proof (normalize_key_shape v t H) as Hs.
  split; [exact Hs|]. split; [now apply normalize_key_fixed|].
  intros w. split; [|now intros ->].
  destruct w as [|[|]|z|f|s]; simpl; try discriminate; [reflexivity| |].
  - destruct (PyFloatOps.is_integer _); discriminate.
  - destruct (str_is_empty _); discriminate.
Qed.

Lemma normalize_key_clean_and_stable_witness :
  all_chars no_space_comma "3.2" = true /\
  normalize_sintetico_coluna_a (PStr "3.2") = Some "3.2".
Proof.
  pose proof (normalize_key_clean_and_stable (PStr " 3, 2") "3.2" eq_refl) as H.
  split; [exact (proj1 H)|exact (proj1 (proj2 H))].
Defined.

(** ** Description normalisation: shape and insensitivity *)

Section DescriptionKeyFacts.










Lemma normal_form_blank s : all_chars PyStr.isspace s = true -> normal_form s = EmptyString.
Proof.
  intros H. unfold normal_form, PyStr.strip. now rewrite (lstrip_blank s H).
Qed.




End DescriptionKeyFacts.




Example step_5_demo :
  value (cell_at (apply_sum_and_formulas_to_curva_abc abc_values_sample) 6 8)
    = PStr "=SUM(H2:H3,H5)" /\
  value (cell_at (apply_sum_and_formulas_to_curva_abc abc_values_sample) 3 9)
    = PStr "=H3/$H$6" /\
  value (cell_at (apply_formulas_to_curva_abc abc_values_sample) 5 8) = PStr "=F5*G5".
Proof. vm_compute. repeat split. Qed.

(** ** Steps 4 and 5 on the ABC sheet *)

Section AbcStageFacts.
Import RangeCollector.

Lemma fill_set_value sh r c v r' c' :
  fill_rgb (cell_at (set_value sh r c v) r' c') = fill_rgb (cell_at sh r' c').
Proof.
  destruct (decide ((r', c') = (r, c))) as [[= -> ->]|Hne].
  - now rewrite cell_at_set_value_same.
  - now rewrite cell_at_set_value_other.
Qed.

Lemma color_set_value sh r c v r' c' :
  get_cell_color (cell_at (set_value sh r c v) r' c') = get_cell_color (cell_at sh r' c').
Proof. unfold get_cell_color. now rewrite fill_set_value. Qed.

Lemma collect_ranges_expand col rows :
  ascending rows -> expand_tokens col (collect_ranges col rows) = Some rows.
Proof.
  destruct rows as [|r0 rest]; [reflexivity|]. intros Ha.
  rewrite collect_ranges_runs, expand_tokens_runs, runs_rows by (lia || assumption).
  now rewrite rows_between_single.
Qed.

Lemma ascending_split l r :
  ascending l -> In r l ->
  exists before after, l = (before ++ r :: after)%list /\ ~ In r before /\ ~ In r after.
Proof.
  induction l as [|x l IH]; intros Ha Hin; [destruct Hin|].
  apply ascending_cons_iff in Ha as [Hall Hl].
  destruct (decide (x = r)) as [->|Hne].
  - exists [], l. split; [reflexivity|]. split; [intros []|].
    intros H. specialize (Hall r H). lia.
  - destruct Hin as [->|Hin]; [congruence|].
    destruct (IH Hl Hin) as (b & a & -> & Hb & Haft).
    exists (x :: b), a. split; [reflexivity|]. split; [|exact Haft].
    intros [->|H]; [congruence|contradiction].
Qed.

(** Step 4, one row. *)
Lemma formulas_abc_row_other sh r r' c :
  r' <> r \/ (c <> 7 /\ c <> 8) -> cell_at (formulas_abc_row sh r) r' c = cell_at sh r' c.
Proof.
  intros H. unfold formulas_abc_row.
  repeat (destruct (color_in _ _));
    rewrite ?cell_at_set_value_other; try reflexivity; intros [= -> ->]; lia.
Qed.

Lemma formulas_abc_row_g sh r :
  cell_at (formulas_abc_row sh r) r 7
  = if color_in (get_cell_color (cell_at sh r 7)) target_colors
    then Cell (PStr ("=J" ++ PyStr.of_int r ++ "*(1-K" ++ PyStr.of_int r ++ ")"))
              (fill_rgb (cell_at sh r 7))
    else cell_at sh r 7.
Proof.
  unfold formulas_abc_row.
  destruct (color_in (get_cell_color (cell_at sh r 7)) target_colors);
    destruct (color_in _ _);
    rewrite ?(cell_at_set_value_other _ r 8) by congruence;
    rewrite ?cell_at_set_value_same; reflexivity.
Qed.

Lemma formulas_abc_row_h sh r :
  cell_at (formulas_abc_row sh r) r 8
  = if color_in (get_cell_color (cell_at sh r 8)) target_colors
    then Cell (PStr ("=F" ++ PyStr.of_int r ++ "*G" ++ PyStr.of_int r))
              (fill_rgb (cell_at sh r 8))
    else cell_at sh r 8.
Proof.
  unfold formulas_abc_row.
  destruct (color_in (get_cell_color (cell_at sh r 7)) target_colors).
  - rewrite color_set_value. destruct (color_in _ _).
    + now rewrite cell_at_set_value_same, cell_at_set_value_other by congruence.
    + now rewrite cell_at_set_value_other by congruence.
  - destruct (color_in _ _); [now rewrite cell_at_set_value_same|reflexivity].
Qed.

Lemma formulas_abc_row_determined sh1 sh2 r :
  (forall c, cell_at sh2 r c = cell_at sh1 r c) ->
  forall c, cell_at (formulas_abc_row sh2 r) r c = cell_at (formulas_abc_row sh1 r) r c.
Proof.
  intros H c. destruct (decide (c = 7)) as [->|H7].
  { now rewrite !formulas_abc_row_g, H. }
  destruct (decide (c = 8)) as [->|H8].
  { now rewrite !formulas_abc_row_h, H. }
  rewrite !formulas_abc_row_other by (right; lia). apply H.
Qed.

Lemma formulas_abc_at sh r c :
  1 <= r <= max_row sh ->
  cell_at (apply_formulas_to_curva_abc sh) r c = cell_at (formulas_abc_row sh r) r c.
Proof.
  intros H. unfold apply_formulas_to_curva_abc.
  apply (loop_rows_between formulas_abc_row (fun _ _ => True)); auto.
  - intros s k k' c0 Hk. apply formulas_abc_row_other. now left.
  - intros. now apply formulas_abc_row_determined.
Qed.

Lemma formulas_abc_outside sh r c :
  ~ 1 <= r <= max_row sh -> cell_at (apply_formulas_to_curva_abc sh) r c = cell_at sh r c.
Proof.
  intros H. unfold apply_formulas_to_curva_abc.
  apply loop_untouched; [|now rewrite in_rows_between].
  intros s k k' c0 Hk. apply formulas_abc_row_other. now left.
Qed.

End AbcStageFacts.

(** X4. Step 4 leaves in G of every row whose G cell is coloured the
    formula [=J<r>*(1-K<r>)] and in H of every row whose H cell is coloured
    the formula [=F<r>*G<r>]; it changes no fill and no other cell. *)
Theorem abc_formulas_exact (sh : sheet) (r c : Z) :
  let out := apply_formulas_to_curva_abc sh in
  let colored k := color_in (get_cell_color (cell_at sh r k)) RangeCollector.target_colors in
  fill_rgb (cell_at out r c) = fill_rgb (cell_at sh r c) /\
  (1 <= r <= max_row sh -> colored 7 = true ->
   value (cell_at out r 7)
   = PStr ("=J" ++ PyStr.of_int r ++ "*(1-K" ++ PyStr.of_int r ++ ")")) /\
  (1 <= r <= max_row sh -> colored 8 = true ->
   value (cell_at out r 8) = PStr ("=F" ++ PyStr.of_int r ++ "*G" ++ PyStr.of_int r)) /\
  (~ (1 <= r <= max_row sh /\ (c = 7 \/ c = 8) /\ colored c = true) ->
   cell_at out r c = cell_at sh r c).
Proof.
  intros out colored. subst out colored. cbv beta.
  destruct (decide (1 <= r <= max_row sh)) as [Hr|Hr].
  2: { rewrite !formulas_abc_outside by exact Hr. repeat split; tauto. }
  rewrite !formulas_abc_at by exact Hr.
  rewrite formulas_abc_row_g, formulas_abc_row_h.
  split; [|split; [|split]].
  - destruct (decide (c = 7)) as [->|H7].
    { rewrite formulas_abc_row_g. now destruct (color_in _ _). }
    destruct (decide (c = 8)) as [->|H8].
    { rewrite formulas_abc_row_h. now destruct (color_in _ _). }
    now rewrite formulas_abc_row_other by (right; lia).
  - intros _ ->. reflexivity.
  - intros _ ->. reflexivity.
  - intros Hn. destruct (decide (c = 7)) as [->|H7].
    { rewrite formulas_abc_row_g.
      destruct (color_in _ _) eqn:E; [exfalso; apply Hn; auto|reflexivity]. }
    destruct (decide (c = 8)) as [->|H8].
    { rewrite formulas_abc_row_h.
      destruct (color_in _ _) eqn:E; [exfalso; apply Hn; auto|reflexivity]. }
    now rewrite formulas_abc_row_other by (right; lia).
Qed.

Lemma abc_formulas_exact_witness :
  value (cell_at (apply_formulas_to_curva_abc abc_values_sample) 3 8) = PStr "=F3*G3".
Proof.
  refine (proj1 (proj2 (proj2 (abc_formulas_exact abc_values_sample 3 8))) _ _).
  - vm_compute. split; discriminate.
  - reflexivity.
Defined.

Section SumStageFacts.
Import RangeCollector.

Lemma scan_column_h_colored sh rows acc last :
  fst (fold_left (scan_column_h sh) rows (acc, last))
  = (acc ++ filter (fun r => color_in (get_cell_color (cell_at sh r 8)) target_colors = true)
             rows)%list.
Proof.
  revert acc last. induction rows as [|r rows IH]; intros acc last; simpl.
  - now rewrite app_nil_r.
  - unfold scan_column_h at 2. simpl. rewrite IH, filter_cons.
    destruct (decide _) as [E|E].
    + rewrite E. now rewrite <- app_assoc.
    + apply not_true_is_false in E. now rewrite E.
Qed.

Lemma scan_column_h_last_snoc sh rows x acc last :
  snd (fold_left (scan_column_h sh) (rows ++ [x]) (acc, last))
  = if is_none (value (cell_at sh x 8))
    then snd (fold_left (scan_column_h sh) rows (acc, last)) else x.
Proof.
  rewrite fold_left_app. simpl.
  destruct (fold_left (scan_column_h sh) rows (acc, last)) as [cs l].
  unfold scan_column_h. simpl. reflexivity.
Qed.

(** The last filled row among rows [1..m]. *)
Lemma last_filled_spec sh (n : nat) :
  let last := snd (fold_left (scan_column_h sh) (rows_between 1 (Z.of_nat n)) ([], 0)) in
  0 <= last <= Z.of_nat n /\
  (forall r, 1 <= r <= Z.of_nat n -> is_none (value (cell_at sh r 8)) = false -> r <= last) /\
  (last <> 0 -> is_none (value (cell_at sh last 8)) = false).
Proof.
  induction n as [|n IH].
  - simpl. repeat split; try lia; congruence.
  - replace (Z.of_nat (S n)) with (Z.of_nat n + 1) by lia.
    rewrite rows_between_snoc by lia. cbv zeta. rewrite scan_column_h_last_snoc.
    cbv zeta in IH. destruct IH as (Hb & Hall & Hv).
    destruct (is_none (value (cell_at sh (Z.of_nat n + 1) 8))) eqn:E.
    + split; [lia|]. split; [|exact Hv].
      intros r Hr Hval. destruct (decide (r = Z.of_nat n + 1)) as [->|Hne]; [congruence|].
      apply Hall; [lia|exact Hval].
    + split; [lia|]. split; [intros; lia|]. intros _. exact E.
Qed.

Lemma sum_row_h_spec sh :
  1 <= sum_row_h sh /\
  (forall r, 1 <= r <= max_row sh -> is_none (value (cell_at sh r 8)) = false ->
     r < sum_row_h sh).
Proof.
  unfold sum_row_h. destruct (decide (0 <= max_row sh)) as [Hm|Hm].
  - pose proof (last_filled_spec sh (Z.to_nat (max_row sh))) as H. cbv zeta in H.
    rewrite Z2Nat.id in H by exact Hm. destruct H as (Hb & Hall & _).
    split; [lia|]. intros r Hr Hv. specialize (Hall r Hr Hv). lia.
  - rewrite rows_between_empty by lia. simpl. split; [lia|]. intros; lia.
Qed.

Lemma apply_sum_unfold sh :
  apply_sum_and_formulas_to_curva_abc sh
  = fold_left (share_row (sum_row_h sh)) (colored_rows sh 8)
      match sum_formula "H" (colored_rows sh 8) with
      | Some f => set_value sh (sum_row_h sh) 8 (PStr f)
      | None => sh
      end.
Proof.
  unfold apply_sum_and_formulas_to_curva_abc, sum_row_h.
  pose proof (scan_column_h_colored sh (rows_between 1 (max_row sh)) [] 0) as Hc.
  destruct (fold_left _ _ _) as [cs l]. simpl in Hc. subst cs. reflexivity.
Qed.

Lemma share_row_other s sh r r' c :
  r' <> r \/ (c <> 9 /\ c <> 11) -> cell_at (share_row s sh r) r' c = cell_at sh r' c.
Proof.
  intros H. unfold share_row.
  repeat (destruct (color_in _ _));
    rewrite ?cell_at_set_value_other; try reflexivity; intros [= -> ->]; lia.
Qed.

Lemma share_row_i s sh r :
  cell_at (share_row s sh r) r 9
  = if color_in (get_cell_color (cell_at sh r 9)) target_colors
    then Cell (PStr ("=H" ++ PyStr.of_int r ++ "/$H$" ++ PyStr.of_int s))
              (fill_rgb (cell_at sh r 9))
    else cell_at sh r 9.
Proof.
  unfold share_row.
  destruct (color_in (get_cell_color (cell_at sh r 9)) target_colors);
    destruct (color_in _ _);
    rewrite ?(cell_at_set_value_other _ r 11) by congruence;
    rewrite ?cell_at_set_value_same; reflexivity.
Qed.

Lemma share_row_k s sh r :
  cell_at (share_row s sh r) r 11
  = if color_in (get_cell_color (cell_at sh r 11)) target_colors
    then Cell (PStr "=0") (fill_rgb (cell_at sh r 11))
    else cell_at sh r 11.
Proof.
  unfold share_row.
  destruct (color_in (get_cell_color (cell_at sh r 9)) target_colors).
  - rewrite color_set_value. destruct (color_in _ _).
    + now rewrite cell_at_set_value_same, cell_at_set_value_other by congruence.
    + now rewrite cell_at_set_value_other by congruence.
  - destruct (color_in _ _); [now rewrite cell_at_set_value_same|reflexivity].
Qed.

Lemma share_row_determined s sh1 sh2 r :
  (forall c, cell_at sh2 r c = cell_at sh1 r c) ->
  forall c, cell_at (share_row s sh2 r) r c = cell_at (share_row s sh1 r) r c.
Proof.
  intros H c. destruct (decide (c = 9)) as [->|H9].
  { now rewrite !share_row_i, H. }
  destruct (decide (c = 11)) as [->|H11].
  { now rewrite !share_row_k, H. }
  rewrite !share_row_other by (right; lia). apply H.
Qed.

Lemma share_loop_column s rows sh r c :
  c <> 9 -> c <> 11 -> cell_at (fold_left (share_row s) rows sh) r c = cell_at sh r c.
Proof.
  intros H9 H11. revert sh. induction rows as [|k rows IH]; intros sh; simpl; [reflexivity|].
  rewrite IH. apply share_row_other. right. lia.
Qed.

Lemma share_loop_row s rows sh r c :
  ascending rows -> In r rows ->
  cell_at (fold_left (share_row s) rows sh) r c = cell_at (share_row s sh r) r c.
Proof.
  intros Ha Hin. destruct (ascending_split rows r Ha Hin) as (b & a & -> & Hb & Haft).
  apply (loop_row (share_row s) (fun _ _ => True)); auto.
  - intros s0 k k' c0 Hk. apply share_row_other. now left.
  - intros. now apply share_row_determined.
Qed.

End SumStageFacts.

(** X5. Step 5 writes into H of the sum row, the row after the last H
    cell holding a value, a SUM whose range tokens expand to exactly the
    coloured rows of column H, and into I of every coloured row whose I
    cell is coloured the share [=H<r>/$H$<sum row>]; with no coloured
    row the sheet is returned as it is.  The sum row lies below every H
    cell of rows [1..max_row] that holds a value. *)
Theorem abc_sum_and_shares (sh : sheet) :
  let out := apply_sum_and_formulas_to_curva_abc sh in
  let colored := RangeCollector.colored_rows sh 8 in
  let s := sum_row_h sh in
  (colored = [] -> out = sh) /\
  (colored <> [] ->
   exists toks,
     value (cell_at out s 8) = PStr ("=SUM(" ++ PyStr.join "," toks ++ ")") /\
     RangeCollector.expand_tokens "H" toks = Some colored) /\
  (forall r, In r colored ->
     color_in (get_cell_color (cell_at sh r 9)) RangeCollector.target_colors = true ->
     value (cell_at out r 9) = PStr ("=H" ++ PyStr.of_int r ++ "/$H$" ++ PyStr.of_int s)) /\
  (forall r, 1 <= r <= max_row sh -> is_none (value (cell_at sh r 8)) = false -> r < s).
Proof.
  intros out colored s. subst out colored s. rewrite apply_sum_unfold.
  pose proof (colored_rows_ascending sh 8) as Ha.
  split; [|split; [|split]].
  - intros ->. reflexivity.
  - intros Hne. exists (RangeCollector.collect_ranges "H" (RangeCollector.colored_rows sh 8)).
    split; [|now apply collect_ranges_expand].
    rewrite share_loop_column by lia.
    unfold RangeCollector.sum_formula.
    destruct (RangeCollector.colored_rows sh 8) as [|r0 rest] eqn:E; [congruence|].
    now rewrite cell_at_set_value_same.
  - intros r Hin Hcol. rewrite share_loop_row by assumption.
    rewrite share_row_i.
    destruct (RangeCollector.sum_formula _ _);
      rewrite ?color_set_value, Hcol; reflexivity.
  - apply sum_row_h_spec.
Qed.

Lemma abc_sum_and_shares_witness :
  exists toks,
    value (cell_at (apply_sum_and_formulas_to_curva_abc abc_values_sample)
             (sum_row_h abc_values_sample) 8)
    = PStr ("=SUM(" ++ PyStr.join "," toks ++ ")") /\
    RangeCollector.expand_tokens "H" toks = Some [2; 3; 5].
Proof.
  refine (proj1 (proj2 (abc_sum_and_shares abc_values_sample)) _).
  vm_compute. discriminate.
Defined.

(** X6. When every coloured H cell holds a value, the sum row of step 5
    lies below all coloured rows: it is none of the rows the SUM ranges
    over, so the total does not refer to its own cell. *)
Theorem abc_sum_row_outside_ranges (sh : sheet) :
  (forall r, In r (RangeCollector.colored_rows sh 8) ->
     is_none (value (cell_at sh r 8)) = false) ->
  (forall r, In r (RangeCollector.colored_rows sh 8) -> r < sum_row_h sh) /\
  ~ In (sum_row_h sh) (RangeCollector.colored_rows sh 8) /\
  (forall rows,
     RangeCollector.expand_tokens "H"
       (RangeCollector.collect_ranges "H" (RangeCollector.colored_rows sh 8)) = Some rows ->
     ~ In (sum_row_h sh) rows).
Proof.
  intros Hval.
  assert (Hbelow : forall r, In r (RangeCollector.colored_rows sh 8) -> r < sum_row_h sh).
  { intros r Hin. apply sum_row_h_spec; [|now apply Hval].
    unfold RangeCollector.colored_rows in Hin.
    apply list_elem_of_In, list_elem_of_filter in Hin as [_ Hin].
    apply list_elem_of_In in Hin. now apply in_rows_between in Hin. }
  assert (Hnot : ~ In (sum_row_h sh) (RangeCollector.colored_rows sh 8)).
  { intros H. specialize (Hbelow _ H). lia. }
  split; [exact Hbelow|]. split; [exact Hnot|].
  intros rows. rewrite collect_ranges_expand by apply colored_rows_ascending.
  now intros [= <-].
Qed.

Lemma abc_sum_row_outside_ranges_witness :
  ~ In (sum_row_h abc_values_sample) (RangeCollector.colored_rows abc_values_sample 8).
Proof.
  refine (proj1 (proj2 (abc_sum_row_outside_ranges abc_values_sample _))).
  intros r Hin. vm_compute in Hin.
  destruct Hin as [<-|[<-|[<-|[]]]]; reflexivity.
Defined.

Example compositions_demo :
  value (cell_at (apply_formulas_cpus_sheet compositions_sample) 1 8) = PStr "=SUM(I2:I3)" /\
  value (cell_at (apply_formulas_cpus_sheet compositions_sample) 6 8) = PStr "=SUM(I7:I7)" /\
  value (cell_at (apply_formulas_cpus_sheet compositions_sample) 2 9) = PStr "=TRUNC((G2*H2),2)" /\
  value (cell_at (apply_third_step_cpus_sheet compositions_sample) 5 8) = PStr "=I6" /\
  contains "ORSE" "Banco orse" = false /\ contains "ORSE" (PyStr.upper "Banco orse") = true.
Proof. vm_compute. repeat split. Qed.

(** ** Step 9: references of auxiliary compositions *)

Section ThirdStepFacts.











End ThirdStepFacts.




(** ** Step 8: the block a primary composition sums *)

Section SomaFacts.




Lemma find_block_end_same_labels a b L last ks :
  (forall k, cell_at b k 1 = cell_at a k 1) ->
  find_block_end b L last ks = find_block_end a L last ks.
Proof.
  intros H. induction ks as [|k ks IH]; simpl; [reflexivity|].
  unfold label_at. now rewrite H, IH.
Qed.

Lemma find_orse_start_same_labels a b rows :
  (forall k, cell_at b k 1 = cell_at a k 1) ->
  find_orse_start b rows = find_orse_start a rows.
Proof.
  intros H. induction rows as [|k rows IH]; simpl; [reflexivity|].
  unfold label_at. now rewrite H, IH.
Qed.

Lemma sum_bounds_same a b last r :
  (forall k, cell_at b k 1 = cell_at a k 1) -> cell_at b r 3 = cell_at a r 3 ->
  sum_bounds b last r = sum_bounds a last r.
Proof.
  intros H1 H3. unfold sum_bounds.
  rewrite H3, (find_orse_start_same_labels a b) by exact H1.
  now rewrite !(find_block_end_same_labels a b) by exact H1.
Qed.

Lemma truncar_row_other sh r r' c :
  r' <> r \/ c <> 9 -> cell_at (truncar_row sh r) r' c = cell_at sh r' c.
Proof.
  intros H. unfold truncar_row. destruct (color_in _ _); [|reflexivity].
  apply cell_at_set_value_other. intros [= -> ->]. destruct H; congruence.
Qed.

Lemma truncar_row_i sh r :
  cell_at (truncar_row sh r) r 9
  = if color_in (get_cell_color (cell_at sh r 9)) target_colors_i
    then Cell (PStr ("=TRUNC((G" ++ PyStr.of_int r ++ "*H" ++ PyStr.of_int r ++ "),2)"))
              (fill_rgb (cell_at sh r 9))
    else cell_at sh r 9.
Proof.
  unfold truncar_row. destruct (color_in _ _); [|reflexivity].
  now rewrite cell_at_set_value_same.
Qed.

Lemma truncar_loop_column rows sh r c :
  c <> 9 -> cell_at (fold_left truncar_row rows sh) r c = cell_at sh r c.
Proof.
  intros Hc. revert sh. induction rows as [|k rows IH]; intros sh; simpl; [reflexivity|].
  rewrite IH. apply truncar_row_other. now right.
Qed.

Lemma truncar_loop_at sh r :
  1 <= r <= max_row sh ->
  cell_at (fold_left truncar_row (rows_between 1 (max_row sh)) sh) r 9
  = cell_at (truncar_row sh r) r 9.
Proof.
  intros H. apply (loop_rows_between truncar_row (fun _ _ => True)); auto.
  - intros s k k' c0 Hk. apply truncar_row_other. now left.
  - intros a b k Hk Hrow c. destruct (decide (c = 9)) as [->|Hc].
    + now rewrite !truncar_row_i, Hrow.
    + rewrite !truncar_row_other by (now right). apply Hrow.
Qed.

Lemma soma_row_other last sh r r' c :
  r' <> r \/ c <> 8 -> cell_at (soma_row last sh r) r' c = cell_at sh r' c.
Proof.
  intros H. unfold soma_row. destruct (color_is _ color_green); [|reflexivity].
  destruct (sum_bounds sh last r) as [s e].
  destruct (_ && _); apply cell_at_set_value_other; intros [= -> ->]; destruct H; congruence.
Qed.

Lemma soma_row_h last sh r :
  cell_at (soma_row last sh r) r 8
  = if color_is (get_cell_color (cell_at sh r 8)) color_green
    then Cell (if (0 <? fst (sum_bounds sh last r))
                  && (fst (sum_bounds sh last r) <=? snd (sum_bounds sh last r))
               then PStr ("=SUM(I" ++ PyStr.of_int (fst (sum_bounds sh last r)) ++ ":I"
                          ++ PyStr.of_int (snd (sum_bounds sh last r)) ++ ")")
               else PInt 0)
              (fill_rgb (cell_at sh r 8))
    else cell_at sh r 8.
Proof.
  unfold soma_row. destruct (color_is _ color_green); [|reflexivity].
  destruct (sum_bounds sh last r) as [s e]. simpl.
  destruct (_ && _); now rewrite cell_at_set_value_same.
Qed.

Lemma soma_loop_at last sh r c :
  1 <= r <= max_row sh ->
  cell_at (fold_left (soma_row last) (rows_between 1 (max_row sh)) sh) r c
  = cell_at (soma_row last sh r) r c.
Proof.
  intros H.
  apply (loop_rows_between (soma_row last)
           (fun a b => forall k c, c <> 8 -> cell_at b k c = cell_at a k c)); auto.
  - intros a b c0 H1 H2 k c1 Hc. now rewrite H2, H1.
  - intros s k k' c0 Hc. apply soma_row_other. now right.
  - intros s k k' c0 Hk. apply soma_row_other. now left.
  - intros a b k Hk Hrow c0. destruct (decide (c0 = 8)) as [->|Hc].
    + rewrite !soma_row_h, Hrow.
      now rewrite (sum_bounds_same a b) by (intros; apply Hk || apply Hrow; lia).
    + rewrite !soma_row_other by (now right). apply Hrow.
Qed.

Lemma soma_loop_column last rows sh r c :
  c <> 8 -> cell_at (fold_left (soma_row last) rows sh) r c = cell_at sh r c.
Proof.
  intros Hc. revert sh. induction rows as [|k rows IH]; intros sh; simpl; [reflexivity|].
  rewrite IH. apply soma_row_other. now right.
Qed.

Lemma truncar_loop_max_row rows sh :
  (forall k, In k rows -> k <= max_row sh) ->
  max_row (fold_left truncar_row rows sh) = max_row sh.
Proof.
  revert sh. induction rows as [|k rows IH]; intros sh H; simpl; [reflexivity|].
  assert (E : max_row (truncar_row sh k) = max_row sh).
  { unfold truncar_row. destruct (color_in _ _); [|reflexivity]. simpl.
    specialize (H k (or_introl eq_refl)). lia. }
  rewrite IH; [exact E|]. intros j Hj. rewrite E. apply H. now right.
Qed.

Lemma formulas_cpus_h sh r :
  1 <= r <= max_row sh ->
  cell_at (apply_formulas_cpus_sheet sh) r 8 = cell_at (soma_row (max_row sh) sh r) r 8.
Proof.
  intros Hr. unfold apply_formulas_cpus_sheet.
  set (sh1 := fold_left truncar_row (rows_between 1 (max_row sh)) sh).
  assert (Hmax : max_row sh1 = max_row sh).
  { apply truncar_loop_max_row. intros k Hk. apply in_rows_between in Hk. lia. }
  assert (Hsame : forall k c, c <> 9 -> cell_at sh1 k c = cell_at sh k c)
    by (intros; now apply truncar_loop_column).
  rewrite <- Hmax at 2. rewrite soma_loop_at by lia.
  rewrite !soma_row_h, !Hsame by lia.
  now rewrite (sum_bounds_same sh sh1) by (intros; apply Hsame; lia).
Qed.

End SomaFacts.



(** X10. Step 8 changes no fill and no cell outside columns H and I: it
    leaves the product [=TRUNC((G<r>*H<r>),2)] in I of the rows whose I
    cell is green or gray, and keeps every cell that is neither such an I
    cell nor the H cell of a primary row. *)
Theorem cpus_formulas_frame (sh : sheet) (r c : Z) :
  let out := apply_formulas_cpus_sheet sh in
  fill_rgb (cell_at out r c) = fill_rgb (cell_at sh r c) /\
  (1 <= r <= max_row sh ->
   color_in (get_cell_color (cell_at sh r 9)) target_colors_i = true ->
   value (cell_at out r 9)
   = PStr ("=TRUNC((G" ++ PyStr.of_int r ++ "*H" ++ PyStr.of_int r ++ "),2)")) /\
  (~ (1 <= r <= max_row sh /\
      ((c = 9 /\ color_in (get_cell_color (cell_at sh r 9)) target_colors_i = true) \/
       (c = 8 /\ color_is (get_cell_color (cell_at sh r 8)) color_green = true))) ->
   cell_at out r c = cell_at sh r c).
Proof.
  intros out. subst out.
  assert (H9 : cell_at (apply_formulas_cpus_sheet sh) r 9
               = if bool_decide (1 <= r <= max_row sh)
                 then cell_at (truncar_row sh r) r 9 else cell_at sh r 9).
  { unfold apply_formulas_cpus_sheet. rewrite soma_loop_column by lia.
    case_bool_decide as Hr; [now apply truncar_loop_at|].
    apply loop_untouched; [|now rewrite in_rows_between].
    intros s k k' c0 Hk. apply truncar_row_other. now left. }
  assert (H8 : cell_at (apply_formulas_cpus_sheet sh) r 8
               = if bool_decide (1 <= r <= max_row sh)
                 then cell_at (soma_row (max_row sh) sh r) r 8 else cell_at sh r 8).
  { case_bool_decide as Hr; [now apply formulas_cpus_h|].
    unfold apply_formulas_cpus_sheet. rewrite loop_untouched.
    - now apply truncar_loop_column.
    - intros s k k' c0 Hk. apply soma_row_other. now left.
    - now rewrite in_rows_between. }
  assert (Hother : c <> 8 -> c <> 9 ->
            cell_at (apply_formulas_cpus_sheet sh) r c = cell_at sh r c).
  { intros N8 N9. unfold apply_formulas_cpus_sheet.
    rewrite soma_loop_column by exact N8. now apply truncar_loop_column. }
  split; [|split].
  - destruct (decide (c = 9)) as [->|N9].
    { rewrite H9. case_bool_decide; [|reflexivity].
      rewrite truncar_row_i. now destruct (color_in _ _). }
    destruct (decide (c = 8)) as [->|N8].
    { rewrite H8. case_bool_decide; [|reflexivity].
      rewrite soma_row_h. now destruct (color_is _ _). }
    now rewrite Hother.
  - intros Hr Hcol. rewrite H9, bool_decide_eq_true_2 by exact Hr.
    now rewrite truncar_row_i, Hcol.
  - intros Hn. destruct (decide (c = 9)) as [->|N9].
    { rewrite H9. case_bool_decide as Hr; [|reflexivity].
      rewrite truncar_row_i. destruct (color_in _ _) eqn:E; [|reflexivity].
      exfalso. apply Hn. auto. }
    destruct (decide (c = 8)) as [->|N8].
    { rewrite H8. case_bool_decide as Hr; [|reflexivity].
      rewrite soma_row_h. destruct (color_is _ _) eqn:E; [|reflexivity].
      exfalso. apply Hn. auto. }
    now apply Hother.
Qed.

Lemma cpus_formulas_frame_witness :
  value (cell_at (apply_formulas_cpus_sheet compositions_sample) 3 9)
  = PStr "=TRUNC((G3*H3),2)".
Proof.
  refine (proj1 (proj2 (cpus_formulas_frame compositions_sample 3 9)) _ _).
  - vm_compute. split; discriminate.
  - reflexivity.
Defined.

Example keys_demo :
  map (fun r => value (cell_at (apply_sintetico_step_2 keys_sample) r 1)) [4; 5; 6; 7; 8]
  = [PStr "Item "; PStr "1"; PStr "1.1"; PStr "5.1"; PNone] /\
  value (cell_at (apply_sintetico_step_2 keys_sample) 7 9) = PStr "=G7*F7".
Proof. vm_compute. repeat split. Qed.

(** ** Step 14 and the dot rule: keys of column A *)

Section KeyStageFacts.

Lemma fold_max_row (step : sheet -> Z -> sheet) rows sh :
  (forall s r, r <= max_row s -> max_row (step s r) = max_row s) ->
  (forall r, In r rows -> r <= max_row sh) ->
  max_row (fold_left step rows sh) = max_row sh.
Proof.
  intros Hstep. revert sh. induction rows as [|k rows IH]; intros sh H; simpl; [reflexivity|].
  assert (E : max_row (step sh k) = max_row sh) by (apply Hstep, H; now left).
  rewrite IH; [exact E|]. intros j Hj. rewrite E. apply H. now right.
Qed.

Lemma fold_fixed (step : sheet -> Z -> sheet) rows sh :
  (forall r, In r rows -> step sh r = sh) -> fold_left step rows sh = sh.
Proof.
  induction rows as [|k rows IH]; intros H; simpl; [reflexivity|].
  rewrite (H k) by now left. apply IH. intros r Hr. apply H. now right.
Qed.

Lemma max_row_set_value sh r c v : r <= max_row sh -> max_row (set_value sh r c v) = max_row sh.
Proof. intros H. simpl. lia. Qed.

Lemma product_row_other sh r r' c :
  r' <> r \/ (c <> 9 /\ c <> 10) -> cell_at (product_row sh r) r' c = cell_at sh r' c.
Proof.
  intros H. unfold product_row.
  repeat (destruct (color_in _ _));
    rewrite ?cell_at_set_value_other; try reflexivity; intros [= -> ->]; lia.
Qed.

Lemma product_row_max sh r : r <= max_row sh -> max_row (product_row sh r) = max_row sh.
Proof.
  intros H. unfold product_row.
  repeat (destruct (color_in _ _)); rewrite ?max_row_set_value; try reflexivity;
    rewrite ?max_row_set_value; exact H.
Qed.

Lemma product_loop_column rows sh r c :
  c <> 9 -> c <> 10 -> cell_at (fold_left product_row rows sh) r c = cell_at sh r c.
Proof.
  intros H9 H10. revert sh. induction rows as [|k rows IH]; intros sh; simpl; [reflexivity|].
  rewrite IH. apply product_row_other. right. lia.
Qed.

Lemma product_loop_max sh :
  max_row (fold_left product_row (rows_between 1 (max_row sh)) sh) = max_row sh.
Proof.
  apply fold_max_row; [apply product_row_max|].
  intros r Hr. apply in_rows_between in Hr. lia.
Qed.

Lemma normalize_a_row_other sh r r' c :
  r' <> r \/ c <> 1 -> cell_at (normalize_a_row sh r) r' c = cell_at sh r' c.
Proof.
  intros H. unfold normalize_a_row. destruct (is_none _); [reflexivity|].
  apply cell_at_set_value_other. intros [= -> ->]. destruct H; congruence.
Qed.

Lemma normalize_a_row_a sh r :
  value (cell_at (normalize_a_row sh r) r 1)
  = if is_none (value (cell_at sh r 1)) then PNone
    else key_value (normalize_sintetico_coluna_a (value (cell_at sh r 1))).
Proof.
  unfold normalize_a_row. destruct (is_none (value (cell_at sh r 1))) eqn:E.
  - destruct (value (cell_at sh r 1)); try discriminate. reflexivity.
  - now rewrite cell_at_set_value_same.
Qed.

Lemma normalize_a_row_determined sh1 sh2 r :
  (forall c, cell_at sh2 r c = cell_at sh1 r c) ->
  forall c, cell_at (normalize_a_row sh2 r) r c = cell_at (normalize_a_row sh1 r) r c.
Proof.
  intros H c. unfold normalize_a_row. rewrite !H.
  destruct (is_none _); [apply H|].
  destruct (decide (c = 1)) as [->|Hc].
  - now rewrite !cell_at_set_value_same, H.
  - rewrite !cell_at_set_value_other by congruence. apply H.
Qed.

Lemma normalize_a_row_max sh r : r <= max_row sh -> max_row (normalize_a_row sh r) = max_row sh.
Proof.
  intros H. unfold normalize_a_row. destruct (is_none _); [reflexivity|].
  now apply max_row_set_value.
Qed.

Lemma step_2_max sh : max_row (apply_sintetico_step_2 sh) = max_row sh.
Proof.
  unfold apply_sintetico_step_2. rewrite fold_max_row.
  - apply product_loop_max.
  - apply normalize_a_row_max.
  - intros r Hr. apply in_rows_between in Hr. lia.
Qed.

Lemma normalize_a_row_cell sh r :
  cell_at (normalize_a_row sh r) r 1
  = if is_none (value (cell_at sh r 1)) then cell_at sh r 1
    else Cell (key_value (normalize_sintetico_coluna_a (value (cell_at sh r 1))))
              (fill_rgb (cell_at sh r 1)).
Proof.
  unfold normalize_a_row. destruct (is_none _); [reflexivity|].
  now rewrite cell_at_set_value_same.
Qed.

Lemma step_2_column_a sh r :
  cell_at (apply_sintetico_step_2 sh) r 1
  = if bool_decide (5 <= r <= max_row sh)
    then cell_at (normalize_a_row sh r) r 1 else cell_at sh r 1.
Proof.
  unfold apply_sintetico_step_2. rewrite product_loop_max.
  set (sh1 := fold_left product_row (rows_between 1 (max_row sh)) sh).
  assert (Hsame : forall k, cell_at sh1 k 1 = cell_at sh k 1)
    by (intros; now apply product_loop_column).
  case_bool_decide as Hr.
  - rewrite (loop_rows_between normalize_a_row (fun _ _ => True)); auto.
    + now rewrite !normalize_a_row_cell, Hsame.
    + intros s k k' c0 Hk. apply normalize_a_row_other. now left.
    + intros. now apply normalize_a_row_determined.
  - rewrite loop_untouched; [apply Hsame| |now rewrite in_rows_between].
    intros s k k' c0 Hk. apply normalize_a_row_other. now left.
Qed.

Lemma key_value_settled v :
  settled_key (if is_none v then PNone else key_value (normalize_sintetico_coluna_a v)).
Proof.
  destruct (is_none v); [now left|].
  destruct (normalize_sintetico_coluna_a v) as [t|] eqn:E; [|now left].
  right. exists t. split; [reflexivity|]. now apply (normalize_key_shape v).
Qed.

Lemma enforce_row_settled sh r :
  settled_key (value (cell_at sh r 1)) -> enforce_row sh r = sh.
Proof.
  intros [E|(t & E & Ht)]; unfold enforce_row; rewrite E; [reflexivity|].
  destruct (truthy (PStr t)); [|reflexivity].
  rewrite (normalize_key_fixed t Ht). simpl. now rewrite String.eqb_refl.
Qed.

Lemma enforce_row_falsy sh r :
  truthy (value (cell_at sh r 1)) = false -> enforce_row sh r = sh.
Proof. intros E. unfold enforce_row. now rewrite E. Qed.

Lemma enforce_row_other sh r r' c :
  r' <> r \/ c <> 1 -> cell_at (enforce_row sh r) r' c = cell_at sh r' c.
Proof.
  intros H. unfold enforce_row. destruct (truthy _); [|reflexivity].
  destruct (differs _ _); [|reflexivity].
  apply cell_at_set_value_other. intros [= -> ->]. destruct H; congruence.
Qed.

Lemma enforce_row_determined sh1 sh2 r :
  (forall c, cell_at sh2 r c = cell_at sh1 r c) ->
  forall c, cell_at (enforce_row sh2 r) r c = cell_at (enforce_row sh1 r) r c.
Proof.
  intros H c. unfold enforce_row. rewrite !H.
  destruct (truthy _); [|apply H]. destruct (differs _ _); [|apply H].
  destruct (decide (c = 1)) as [->|Hc].
  - now rewrite !cell_at_set_value_same, H.
  - rewrite !cell_at_set_value_other by congruence. apply H.
Qed.

Lemma enforce_row_max sh r : r <= max_row sh -> max_row (enforce_row sh r) = max_row sh.
Proof.
  intros H. unfold enforce_row. destruct (truthy _); [|reflexivity].
  destruct (differs _ _); [|reflexivity]. now apply max_row_set_value.
Qed.

Lemma enforce_max sh : max_row (enforce_sintetico_coluna_a_dot_rule sh) = max_row sh.
Proof.
  unfold enforce_sintetico_coluna_a_dot_rule. apply fold_max_row; [apply enforce_row_max|].
  intros r Hr. apply in_rows_between in Hr. lia.
Qed.

(** After one row of the dot rule, the key is falsy or settled. *)
Lemma enforce_row_result sh r :
  truthy (value (cell_at (enforce_row sh r) r 1)) = false \/
  settled_key (value (cell_at (enforce_row sh r) r 1)).
Proof.
  unfold enforce_row. destruct (truthy (value (cell_at sh r 1))) eqn:Et; [|now left].
  destruct (differs _ _) eqn:Ed.
  - right. rewrite cell_at_set_value_same. simpl.
    destruct (normalize_sintetico_coluna_a _) as [t|] eqn:E; [|now left].
    right. exists t. split; [reflexivity|]. now apply (normalize_key_shape _ _ E).
  - right. destruct (normalize_sintetico_coluna_a _) as [t|] eqn:E;
      destruct (value (cell_at sh r 1)) as [| | | |s0] eqn:Ev; try discriminate.
    simpl in Ed. apply negb_false_iff, String.eqb_eq in Ed. subst s0.
    right. exists t. split; [reflexivity|]. now apply (normalize_key_shape _ _ E).
Qed.

Lemma enforce_at sh r :
  5 <= r <= max_row sh ->
  cell_at (enforce_sintetico_coluna_a_dot_rule sh) r 1 = cell_at (enforce_row sh r) r 1.
Proof.
  intros Hr. unfold enforce_sintetico_coluna_a_dot_rule.
  apply (loop_rows_between enforce_row (fun _ _ => True)); auto.
  - intros s k k' c0 Hk. apply enforce_row_other. now left.
  - intros. now apply enforce_row_determined.
Qed.

Lemma step_2_key_settled sh r :
  5 <= r <= max_row sh -> settled_key (value (cell_at (apply_sintetico_step_2 sh) r 1)).
Proof.
  intros Hr. rewrite step_2_column_a, bool_decide_eq_true_2 by exact Hr.
  rewrite normalize_a_row_a. apply key_value_settled.
Qed.

End KeyStageFacts.

(** X11. After step 14 every cell of column A on rows [5..max_row] holds
    nothing, when it held nothing, or else the normalised key of what it
    held, a text with neither space nor comma; column A is untouched on
    the other rows. *)
Theorem step_2_settles_keys (sh : sheet) (r : Z) :
  let out := apply_sintetico_step_2 sh in
  (5 <= r <= max_row sh ->
   value (cell_at out r 1)
   = (if is_none (value (cell_at sh r 1)) then PNone
      else key_value (normalize_sintetico_coluna_a (value (cell_at sh r 1)))) /\
   settled_key (value (cell_at out r 1))) /\
  (~ 5 <= r <= max_row sh -> cell_at out r 1 = cell_at sh r 1).
Proof.
  intros out. subst out. rewrite step_2_column_a. split; intros Hr.
  - rewrite bool_decide_eq_true_2 by exact Hr. rewrite normalize_a_row_a.
    split; [reflexivity|apply key_value_settled].
  - now rewrite bool_decide_eq_false_2 by exact Hr.
Qed.

Lemma step_2_settles_keys_witness :
  value (cell_at (apply_sintetico_step_2 keys_sample) 6 1) = PStr "1.1".
Proof.
  refine (proj1 (proj1 (step_2_settles_keys keys_sample 6) _)).
  vm_compute. split; discriminate.
Defined.

(** X12. The dot rule finds nothing left to do after step 14, and nothing
    after itself: applied to the sheet either stage returns, it returns
    that sheet unchanged. *)
Theorem dot_rule_is_stable (sh : sheet) :
  enforce_sintetico_coluna_a_dot_rule (apply_sintetico_step_2 sh)
  = apply_sintetico_step_2 sh /\
  enforce_sintetico_coluna_a_dot_rule (enforce_sintetico_coluna_a_dot_rule sh)
  = enforce_sintetico_coluna_a_dot_rule sh.
Proof.
  split.
  - unfold enforce_sintetico_coluna_a_dot_rule at 1. apply fold_fixed.
    intros r Hr. apply in_rows_between in Hr. rewrite step_2_max in Hr.
    apply enforce_row_settled. now apply step_2_key_settled.
  - unfold enforce_sintetico_coluna_a_dot_rule at 1. apply fold_fixed.
    intros r Hr. apply in_rows_between in Hr. rewrite enforce_max in Hr.
    destruct (enforce_row_result sh r) as [H|H]; rewrite <- enforce_at in H by exact Hr.
    + now apply enforce_row_falsy.
    + now apply enforce_row_settled.
Qed.

(** ** Steps 10 and 17: what the lookups leave alone *)

(** X13. Steps 10 and 17 change no fill and only the values of their
    target cells: step 10 keeps every cell but H of the gray rows; step 17
    keeps every cell but G of the green and yellow rows, and a green row
    (a composition) receives in G the code-keyed VLOOKUP into the CPUs
    sheet with fallback 0, whatever the ambiguous set. *)
Theorem lookup_stages_frame
    (cpus_sheet wsOS wsCPUs abc_sheet : sheet) (problematic_codes : gset string) (r c : Z) :
  let out10 := apply_fourth_step_cpus_sheet cpus_sheet abc_sheet problematic_codes in
  let out17 := apply_sintetico_step_4 wsOS wsCPUs abc_sheet problematic_codes in
  fill_rgb (cell_at out10 r c) = fill_rgb (cell_at cpus_sheet r c) /\
  fill_rgb (cell_at out17 r c) = fill_rgb (cell_at wsOS r c) /\
  (~ (1 <= r <= max_row cpus_sheet /\ c = 8 /\
      color_is (get_cell_color (cell_at cpus_sheet r 8)) color_gray = true) ->
   cell_at out10 r c = cell_at cpus_sheet r c) /\
  (~ (1 <= r <= max_row wsOS /\ c = 7 /\
      (color_is (get_cell_color (cell_at wsOS r 7)) color_green = true \/
       color_is (get_cell_color (cell_at wsOS r 7)) color_yellow = true)) ->
   cell_at out17 r c = cell_at wsOS r c) /\
  (1 <= r <= max_row wsOS ->
   color_is (get_cell_color (cell_at wsOS r 7)) color_green = true ->
   value (cell_at out17 r 7)
   = PStr ("=IFERROR(VLOOKUP(" ++ Formula.cell_ref "B" r ++ ","
           ++ Formula.sheet_name wsCPUs ++ "!$B:$H,7,FALSE),0)")).
Proof.
  intros out10 out17. subst out10 out17.
  assert (H10 : cell_at (apply_fourth_step_cpus_sheet cpus_sheet abc_sheet problematic_codes) r c
                = if bool_decide (1 <= r <= max_row cpus_sheet)
                  then cell_at (fourth_step_row abc_sheet problematic_codes cpus_sheet r) r c
                  else cell_at cpus_sheet r c).
  { destruct (decide (1 <= r <= max_row cpus_sheet)) as [Hr|Hr];
      [rewrite bool_decide_eq_true_2 by exact Hr; now apply fourth_step_at
      |rewrite bool_decide_eq_false_2 by exact Hr].
    unfold apply_fourth_step_cpus_sheet. apply loop_untouched; [|now rewrite in_rows_between].
    intros s k k' c0 Hk. now apply fourth_step_row_other. }
  assert (H17 : forall c,
            cell_at (apply_sintetico_step_4 wsOS wsCPUs abc_sheet problematic_codes) r c
            = if bool_decide (1 <= r <= max_row wsOS)
              then cell_at (sintetico_step_4_row wsCPUs abc_sheet problematic_codes wsOS r) r c
              else cell_at wsOS r c).
  { intros c0. destruct (decide (1 <= r <= max_row wsOS)) as [Hr|Hr];
      [rewrite bool_decide_eq_true_2 by exact Hr; now apply step_4_at
      |rewrite bool_decide_eq_false_2 by exact Hr].
    unfold apply_sintetico_step_4. apply loop_untouched; [|now rewrite in_rows_between].
    intros s k k' c1 Hk. now apply step_4_row_other. }
  rewrite H10, !H17. clear H10 H17. split; [|split; [|split; [|split]]].
  - case_bool_decide; [|reflexivity]. unfold fourth_step_row.
    destruct (color_is _ color_gray); [|reflexivity].
    destruct (bool_decide _); apply fill_set_value.
  - case_bool_decide; [|reflexivity]. unfold sintetico_step_4_row.
    destruct (color_is _ color_green); [apply fill_set_value|].
    destruct (color_is _ color_yellow); [|reflexivity].
    destruct (bool_decide _); apply fill_set_value.
  - intros Hn. case_bool_decide as Hr; [|reflexivity]. unfold fourth_step_row.
    destruct (color_is _ color_gray) eqn:E; [|reflexivity].
    destruct (bool_decide _); apply cell_at_set_value_other; intros [= ->]; apply Hn; auto.
  - intros Hn. case_bool_decide as Hr; [|reflexivity]. unfold sintetico_step_4_row.
    destruct (color_is _ color_green) eqn:Eg.
    { apply cell_at_set_value_other. intros [= ->]. apply Hn. auto. }
    destruct (color_is _ color_yellow) eqn:Ey; [|reflexivity].
    destruct (bool_decide _); apply cell_at_set_value_other; intros [= ->]; apply Hn; auto.
  - intros Hr Hg. rewrite bool_decide_eq_true_2 by exact Hr.
    unfold sintetico_step_4_row. rewrite Hg. now rewrite cell_at_set_value_same.
Qed.

Lemma lookup_stages_frame_witness :
  cell_at (apply_fourth_step_cpus_sheet cpus_sample abc_sample ∅) 1 2
  = cell_at cpus_sample 1 2.
Proof.
  refine (proj1 (proj2 (proj2
            (lookup_stages_frame cpus_sample sintetico_sample cpus_sample abc_sample ∅ 1 2))) _).
  intros (_ & H & _). discriminate H.
Defined.

(** ** Step 21: totals over the level-1 items *)

Section TotalsFacts.





End TotalsFacts.



(** ** Unique sheet titles *)

Example unique_title_demo :
  make_unique_sheet_title [abc_sample] "  Curva ABC de Insumos " = Some "Curva ABC de Insumos_2" /\
  make_unique_sheet_title [] "" = Some "Planilha" /\
  SheetTitle.candidate "abcdefghijklmnopqrstuvwxyz0123456789" 12
  = "abcdefghijklmnopqrstuvwxyz01_12".
Proof. vm_compute. repeat split. Qed.

Section SheetTitleFacts.
Import SheetTitle.










End SheetTitleFacts.


(** ** The sheet a stage works on *)

Section WorkbookFacts.
Import Workbook.

Lemma find_index_spec p wb :
  match find_index p wb with
  | Some i =>
      exists sh, wb !! i = Some sh /\ p sh = true /\
        forall (k : nat) sh', (k < i)%nat -> wb !! k = Some sh' -> p sh' = false
  | None => forall sh, In sh wb -> p sh = false
  end.
Proof.
  induction wb as [|sh wb IH]; simpl; [intros sh []|].
  destruct (p sh) eqn:E.
  - exists sh. split; [reflexivity|]. split; [exact E|]. intros; lia.
  - destruct (find_index p wb) as [i|]; simpl.
    + destruct IH as (sh0 & Hl & Hp & Hbefore). exists sh0.
      split; [exact Hl|]. split; [exact Hp|].
      intros [|k] sh' Hk; simpl; [now intros [= <-]|].
      intros Hl'. apply (Hbefore k); [lia|exact Hl'].
    + intros sh0 [<-|Hin]; [exact E|now apply IH].
Qed.

End WorkbookFacts.

(** X16. A CPUs stage (steps 8 and 9) never skips on a workbook that has
    a sheet: it runs on the first sheet whose title contains ['CPU'] or
    ['Compos'], and when no title does, on the first sheet of the
    workbook, whatever that sheet is.  Only that sheet changes, and an
    empty workbook is returned as it is. *)
Theorem cpus_stage_target (workbook : list sheet) :
  (workbook = [] ->
   apply_formulas_cpus_workbook workbook = [] /\
   apply_third_step_cpus_workbook workbook = []) /\
  (workbook <> [] ->
   exists (i : nat) sh,
     workbook !! i = Some sh /\
     apply_formulas_cpus_workbook workbook = <[i := apply_formulas_cpus_sheet sh]> workbook /\
     apply_third_step_cpus_workbook workbook
       = <[i := apply_third_step_cpus_sheet sh]> workbook /\
     (forall (k : nat) sh', (k < i)%nat -> workbook !! k = Some sh' ->
        Workbook.is_cpus_title sh' = false) /\
     (Workbook.is_cpus_title sh = true \/
      (i = O /\ forall sh', In sh' workbook -> Workbook.is_cpus_title sh' = false))).
Proof.
  split; [intros ->; split; reflexivity|]. intros Hne.
  unfold apply_formulas_cpus_workbook, apply_third_step_cpus_workbook, Workbook.cpus_target.
  pose proof (find_index_spec Workbook.is_cpus_title workbook) as Hs.
  destruct (Workbook.find_index Workbook.is_cpus_title workbook) as [i|].
  - destruct Hs as (sh & Hl & Hp & Hbefore). exists i, sh.
    unfold Workbook.on_target. rewrite Hl. auto 6.
  - destruct workbook as [|sh rest]; [congruence|]. exists O, sh. simpl.
    split; [reflexivity|]. split; [reflexivity|]. split; [reflexivity|].
    split; [intros; lia|]. right. auto.
Qed.

Lemma cpus_stage_target_witness :
  exists (i : nat) sh,
    [abc_values_sample] !! i = Some sh /\
    apply_formulas_cpus_workbook [abc_values_sample]
    = <[i := apply_formulas_cpus_sheet sh]> [abc_values_sample].
Proof.
  destruct (proj2 (cpus_stage_target [abc_values_sample]) ltac:(discriminate))
    as (i & sh & H1 & H2 & _).
  exists i, sh. split; [exact H1|exact H2].
Defined.

(** X17. An ABC stage (steps 4 and 5) runs on the first sheet whose title
    contains ['Curva ABC de Insumos'] and changes no other sheet; when no
    title contains it the workbook is returned as it is. *)
Theorem abc_stage_target (workbook : list sheet) :
  ((forall sh, In sh workbook -> Workbook.is_abc_title sh = false) ->
   apply_formulas_to_curva_abc_workbook workbook = workbook /\
   apply_sum_and_formulas_to_curva_abc_workbook workbook = workbook) /\
  (forall (i : nat) sh,
     workbook !! i = Some sh -> Workbook.is_abc_title sh = true ->
     (forall (k : nat) sh', (k < i)%nat -> workbook !! k = Some sh' ->
        Workbook.is_abc_title sh' = false) ->
     apply_formulas_to_curva_abc_workbook workbook
       = <[i := apply_formulas_to_curva_abc sh]> workbook /\
     apply_sum_and_formulas_to_curva_abc_workbook workbook
       = <[i := apply_sum_and_formulas_to_curva_abc sh]> workbook).
Proof.
  unfold apply_formulas_to_curva_abc_workbook, apply_sum_and_formulas_to_curva_abc_workbook.
  pose proof (find_index_spec Workbook.is_abc_title workbook) as Hs.
  destruct (Workbook.find_index Workbook.is_abc_title workbook) as [j|]; split.
  - intros Hnone. destruct Hs as (sh & Hl & Hp & _).
    rewrite (Hnone sh) in Hp by (apply list_elem_of_In; eapply list_elem_of_lookup_2; eauto).
    discriminate.
  - intros i sh Hl Hp Hbefore. destruct Hs as (sh0 & Hl0 & Hp0 & Hbefore0).
    assert (i = j).
    { destruct (lt_eq_lt_dec i j) as [[Hlt|Heq]|Hgt]; [|exact Heq|].
      - rewrite (Hbefore0 i sh Hlt Hl) in Hp. discriminate.
      - rewrite (Hbefore j sh0 Hgt Hl0) in Hp0. discriminate. }
    subst j. unfold Workbook.on_target. rewrite Hl. auto.
  - intros _. split; reflexivity.
  - intros i sh Hl Hp _. rewrite (Hs sh) in Hp; [discriminate|].
    apply list_elem_of_In. eapply list_elem_of_lookup_2; eauto.
Qed.

Lemma abc_stage_target_witness :
  apply_formulas_to_curva_abc_workbook [cpus_sample; sintetico_sample]
  = [cpus_sample; sintetico_sample].
Proof.
  refine (proj1 (proj1 (abc_stage_target [cpus_sample; sintetico_sample]) _)).
  intros sh [<-|[<-|[]]]; reflexivity.
Defined.

(** ** Step 11 *)

Section BlankFacts.



Lemma max_column_at_least_1 sh : 1 <= max_column sh.
Proof.
  unfold max_column.
  apply (map_fold_weak_ind (fun acc _ => 1 <= acc)); [lia|].
  intros. lia.
Qed.


















End BlankFacts.

Example blank_demo :
  max_column blank_sample = 6 /\
  map (fun c => value (cell_at (apply_fifth_step_cpus_sheet blank_sample) 2 c)) [1; 4; 6]
  = [PNone; PNone; PNone] /\
  value (cell_at (apply_fifth_step_cpus_sheet blank_sample) 1 4) = PStr "Muro" /\
  get_cell_color (cell_at (apply_fifth_step_cpus_sheet blank_sample) 2 6) = Some "DFF0D8".
Proof. vm_compute. repeat split. Qed.


(** ** The hierarchical aggregator run again *)

Section HierarchyAgain.

Lemma sum_hierarchy_row_fill last sh r r' c :
  fill_rgb (cell_at (sum_hierarchy_row last sh r) r' c) = fill_rgb (cell_at sh r' c).
Proof.
  unfold sum_hierarchy_row.
  destruct (color_is _ color_blue); [|reflexivity].
  destruct (_ =? -1); [reflexivity|].
  destruct (scan_children _ _ _); [reflexivity|].
  now rewrite !fill_set_value.
Qed.

Lemma sum_hierarchy_row_max_row last sh r :
  r <= max_row sh -> max_row (sum_hierarchy_row last sh r) = max_row sh.
Proof.
  intros H. unfold sum_hierarchy_row.
  destruct (color_is _ color_blue); [|reflexivity].
  destruct (_ =? -1); [reflexivity|].
  destruct (scan_children _ _ _); [reflexivity|].
  simpl. lia.
Qed.

Lemma sum_hierarchy_loop_fill last rows sh r c :
  fill_rgb (cell_at (fold_left (sum_hierarchy_row last) rows sh) r c)
  = fill_rgb (cell_at sh r c).
Proof.
  revert sh. induction rows as [|k rows IH]; intros sh; simpl; [reflexivity|].
  rewrite IH. apply sum_hierarchy_row_fill.
Qed.

Lemma sum_hierarchy_loop_max_row last rows sh :
  (forall r, In r rows -> r <= max_row sh) ->
  max_row (fold_left (sum_hierarchy_row last) rows sh) = max_row sh.
Proof.
  revert sh. induction rows as [|k rows IH]; intros sh H; simpl; [reflexivity|].
  assert (E : max_row (sum_hierarchy_row last sh k) = max_row sh)
    by (apply sum_hierarchy_row_max_row, H; now left).
  rewrite IH; [exact E|]. intros r Hr. rewrite E. apply H. now right.
Qed.

Lemma sum_hierarchy_max_row sh :
  max_row (apply_sintetico_sum_hierarchy sh) = max_row sh.
Proof.
  apply sum_hierarchy_loop_max_row. intros r Hr. apply in_rows_between in Hr. lia.
Qed.

Lemma sum_hierarchy_other_columns sh r c :
  c <> 9 -> c <> 10 -> cell_at (apply_sintetico_sum_hierarchy sh) r c = cell_at sh r c.
Proof.
  intros H9 H10. destruct (decide (1 <= r <= max_row sh)) as [Hr|Hr].
  - rewrite sum_hierarchy_at by exact Hr. apply sum_hierarchy_row_at. now right.
  - now apply sum_hierarchy_outside.
Qed.

End HierarchyAgain.

(** X19.  The hierarchical aggregator ([apply_sintetico_sum_hierarchy])
    writes columns I and J only, changes no fill colour and does not move
    [max_row]; as it reads only column A and the fill colours, running it
    a second time leaves every cell as the first run left it. *)
Theorem hierarchy_rerun_changes_nothing sh r c :
  let once := apply_sintetico_sum_hierarchy sh in
  max_row once = max_row sh /\
  fill_rgb (cell_at once r c) = fill_rgb (cell_at sh r c) /\
  (c <> 9 -> c <> 10 -> cell_at once r c = cell_at sh r c) /\
  cell_at (apply_sintetico_sum_hierarchy once) r c = cell_at once r c.
Proof.
  intros once. subst once.
  split; [apply sum_hierarchy_max_row|].
  split; [apply sum_hierarchy_loop_fill|].
  split; [apply sum_hierarchy_other_columns|].
  destruct (decide (1 <= r <= max_row sh)) as [Hr|Hr].
  - rewrite (sum_hierarchy_at (apply_sintetico_sum_hierarchy sh))
      by (now rewrite sum_hierarchy_max_row).
    rewrite sum_hierarchy_max_row.
    assert (HA : same_column_a sh (apply_sintetico_sum_hierarchy sh))
      by (intros k; apply sum_hierarchy_other_columns; lia).
    assert (Hcell : forall c', cell_at (apply_sintetico_sum_hierarchy sh) r c'
                               = cell_at (sum_hierarchy_row (max_row sh) sh r) r c')
      by (intros c'; now apply sum_hierarchy_at).
    unfold sum_hierarchy_row at 1.
    rewrite (HA r), (scan_children_same_column_a sh _ _ _ HA).
    rewrite (Hcell c). unfold sum_hierarchy_row.
    destruct (color_is _ color_blue) eqn:B.
    2:{ rewrite Hcell. unfold sum_hierarchy_row. now rewrite B. }
    destruct (_ =? -1) eqn:L.
    { rewrite Hcell. unfold sum_hierarchy_row. now rewrite B, L. }
    destruct (scan_children _ _ _) as [|k ks] eqn:S.
    { rewrite Hcell. unfold sum_hierarchy_row. now rewrite B, L, S. }
    destruct (decide (c = 10)) as [->|H10].
    { rewrite !cell_at_set_value_same. f_equal.
      rewrite !cell_at_set_value_other by congruence.
      apply sum_hierarchy_loop_fill. }
    rewrite !(cell_at_set_value_other _ r 10) by congruence.
    destruct (decide (c = 9)) as [->|H9].
    { rewrite !cell_at_set_value_same. f_equal. apply sum_hierarchy_loop_fill. }
    rewrite !cell_at_set_value_other by congruence.
    now apply sum_hierarchy_other_columns.
  - rewrite sum_hierarchy_outside by (now rewrite sum_hierarchy_max_row).
    reflexivity.
Qed.

(** ** Step 6 *)

Example abc_tail_demo :
  let out := apply_sum_column_i_and_delete_below abc_tail_sample in
  max_row out = 4 /\
  value (cell_at out 4 9) = PStr "=SUM(I2:I3)" /\
  cells out !! (5, 1) = None /\ cells out !! (6, 9) = None /\
  value (cell_at out 3 9) = PInt 20.
Proof. vm_compute. repeat split. Qed.

Section TailFacts.
Import RangeCollector.

Lemma last_cons_default (x : Z) l d : List.last (x :: l) d = List.last l x.
Proof.
  revert x d. induction l as [|y l IH]; intros x d; [reflexivity|].
  change (List.last (y :: l) d = List.last (y :: l) x).
  now rewrite !IH.
Qed.

Lemma scan_column_i_fold sh rows acc l :
  fold_left (scan_column_i sh) rows (acc, l)
  = ((acc ++ filter (fun r => color_in (get_cell_color (cell_at sh r 9)) target_colors = true)
              rows)%list,
     List.last (filter (fun r => color_in (get_cell_color (cell_at sh r 9)) target_colors = true)
                  rows) l).
Proof.
  revert acc l. induction rows as [|r rows IH]; intros acc l.
  - simpl. now rewrite app_nil_r.
  - cbn [fold_left]. unfold scan_column_i at 2. cbn [fst snd]. rewrite filter_cons.
    destruct (decide _) as [E|E].
    + rewrite E, IH, last_cons_default. now rewrite <- app_assoc.
    + apply not_true_is_false in E. rewrite E. apply IH.
Qed.

Lemma sum_row_i_last sh : sum_row_i sh = List.last (colored_rows sh 9) 0 + 1.
Proof. unfold sum_row_i. now rewrite scan_column_i_fold. Qed.

Lemma ascending_last l d r : ascending l -> In r l -> r <= List.last l d.
Proof.
  revert d r. induction l as [|x l IH]; intros d r Ha Hin; [destruct Hin|].
  rewrite last_cons_default. destruct l as [|y l].
  - destruct Hin as [Hx|[]]. simpl. lia.
  - destruct Hin as [Hx|Hin].
    + subst r. assert (x < y) by (apply (ascending_above x (y :: l)); [exact Ha|now left]).
      assert (y <= List.last (y :: l) x)
        by (apply IH; [now apply ascending_tail in Ha|now left]).
      lia.
    + apply IH; [now apply ascending_tail in Ha|exact Hin].
Qed.

Lemma last_in (l : list Z) d : l <> [] -> In (List.last l d) l.
Proof.
  revert d. induction l as [|x l IH]; intros d H; [congruence|].
  rewrite last_cons_default. destruct l as [|y l]; [now left|].
  right. apply IH. congruence.
Qed.

Lemma in_colored_rows sh col r :
  In r (colored_rows sh col) -> 1 <= r <= max_row sh.
Proof.
  unfold colored_rows. intros Hin.
  apply list_elem_of_In, list_elem_of_filter in Hin as [_ Hin].
  apply list_elem_of_In in Hin. now apply in_rows_between in Hin.
Qed.

Lemma apply_sum_i_unfold sh :
  apply_sum_column_i_and_delete_below sh
  = let s := sum_row_i sh in
    let sh1 :=
      match sum_formula "I" (colored_rows sh 9) with
      | Some f => set_value sh s 9 (PStr f)
      | None => sh
      end in
    if 0 <? max_row sh1 - s then delete_rows sh1 (s + 1) (max_row sh1 - s) else sh1.
Proof.
  unfold apply_sum_column_i_and_delete_below, sum_row_i.
  rewrite scan_column_i_fold. reflexivity.
Qed.

Lemma last_cell_row_insert (m : gmap (Z * Z) cell) k x :
  last_cell_row (<[k := x]> m) = Z.max (fst k) (last_cell_row (delete k m)).
Proof.
  unfold last_cell_row. rewrite <- insert_delete_eq.
  apply (map_fold_insert_L (fun (k : Z * Z) (_ : cell) acc => Z.max (fst k) acc)).
  - intros. lia.
  - apply lookup_delete_eq.
Qed.

Lemma last_cell_row_lower (m : gmap (Z * Z) cell) r c x :
  m !! (r, c) = Some x -> r <= last_cell_row m.
Proof.
  intros H. rewrite <- (insert_delete_id m (r, c) x H).
  rewrite last_cell_row_insert. simpl. lia.
Qed.

Lemma last_cell_row_at_least_1 (m : gmap (Z * Z) cell) : 1 <= last_cell_row m.
Proof.
  unfold last_cell_row.
  apply (map_fold_weak_ind (fun acc _ => 1 <= acc)); [lia|]. intros. lia.
Qed.

Lemma last_cell_row_upper (m : gmap (Z * Z) cell) b :
  1 <= b -> map_Forall (fun (k : Z * Z) (_ : cell) => fst k <= b) m -> last_cell_row m <= b.
Proof.
  intros Hb. unfold last_cell_row.
  apply (map_fold_weak_ind
           (fun acc m => map_Forall (fun (k : Z * Z) (_ : cell) => fst k <= b) m -> acc <= b)).
  - intros _. exact Hb.
  - intros i x m' acc Hnone IH Hall.
    assert (fst i <= b) by (apply (Hall i x); apply lookup_insert_eq).
    assert (acc <= b).
    { apply IH. intros k y Hk. apply (Hall k y).
      rewrite lookup_insert_ne; [exact Hk|]. intros ->. congruence. }
    lia.
Qed.

Lemma lookup_delete_rows sh idx amount r c :
  cells (delete_rows sh idx amount) !! (r, c)
  = if decide (idx <= r < idx + amount) then None else cells sh !! (r, c).
Proof.
  unfold delete_rows. cbn [cells].
  apply option_eq. intros x. rewrite map_lookup_filter_Some. cbn [fst].
  destruct (decide (idx <= r < idx + amount)) as [H|H]; split.
  - intros [_ Hn]. contradiction.
  - discriminate.
  - intros [Hx _]. exact Hx.
  - intros Hx. split; [exact Hx|exact H].
Qed.

Lemma rows_within_set_value sh r c v : rows_within sh -> rows_within (set_value sh r c v).
Proof.
  intros H k x Hk. unfold set_value in *. cbn [cells max_row] in *.
  apply lookup_insert_Some in Hk as [[<- _]|[_ Hk]]; [simpl; lia|].
  specialize (H k x Hk). cbn beta in H. lia.
Qed.

Lemma rows_within_None sh r c : rows_within sh -> max_row sh < r -> cells sh !! (r, c) = None.
Proof.
  intros H Hr. destruct (cells sh !! (r, c)) as [x|] eqn:E; [|reflexivity].
  specialize (H (r, c) x E). simpl in H. lia.
Qed.

(** What is left after the rows below [s] are deleted. *)
Lemma delete_below_cells sh1 s r c :
  rows_within sh1 ->
  cells (if 0 <? max_row sh1 - s then delete_rows sh1 (s + 1) (max_row sh1 - s) else sh1)
    !! (r, c)
  = if decide (r <= s) then cells sh1 !! (r, c) else None.
Proof.
  intros Hwf. destruct (0 <? max_row sh1 - s) eqn:E.
  - apply Z.ltb_lt in E. rewrite lookup_delete_rows.
    destruct (decide (s + 1 <= r < s + 1 + (max_row sh1 - s))) as [H|H];
      destruct (decide (r <= s)) as [H'|H']; try reflexivity; try lia.
    apply rows_within_None; [exact Hwf|lia].
  - apply Z.ltb_ge in E.
    destruct (decide (r <= s)) as [H'|H']; [reflexivity|].
    apply rows_within_None; [exact Hwf|lia].
Qed.

Lemma delete_below_max_row sh1 s :
  rows_within sh1 -> 1 <= s <= max_row sh1 ->
  (s = 1 \/ is_Some (cells sh1 !! (s, 9))) ->
  max_row (if 0 <? max_row sh1 - s then delete_rows sh1 (s + 1) (max_row sh1 - s) else sh1)
  = s.
Proof.
  intros Hwf Hs Hcell. destruct (0 <? max_row sh1 - s) eqn:E.
  - apply Z.ltb_lt in E. unfold delete_rows. cbn [max_row].
    apply Z.le_antisymm.
    + apply last_cell_row_upper; [lia|].
      intros [r c] x Hk. apply map_lookup_filter_Some in Hk as [Hk Hn].
      specialize (Hwf (r, c) x Hk). simpl in *. lia.
    + destruct Hcell as [->|[x Hx]]; [apply last_cell_row_at_least_1|].
      apply (last_cell_row_lower _ s 9 x).
      apply map_lookup_filter_Some. split; [exact Hx|]. simpl. lia.
  - apply Z.ltb_ge in E. lia.
Qed.

End TailFacts.

(** X20.  Step 6 ([apply_sum_column_i_and_delete_below]) on a sheet with
    no cell below [max_row]: the sum row is the row after the last
    coloured row of column I (row 1 when there is none), so it is none of
    the summed rows; its I cell gets a SUM whose range tokens expand to
    exactly the coloured rows; every cell below the sum row is gone and
    the sum row becomes the last row; every other cell up to the sum row
    is as before. *)
Theorem column_i_sum_and_tail (sh : sheet) :
  rows_within sh -> 1 <= max_row sh ->
  let out := apply_sum_column_i_and_delete_below sh in
  let colored := RangeCollector.colored_rows sh 9 in
  let s := sum_row_i sh in
  (forall r, In r colored -> r < s) /\
  (colored = [] -> s = 1 /\ cells out !! (s, 9) = cells sh !! (s, 9)) /\
  (colored <> [] ->
   In (s - 1) colored /\
   exists toks,
     value (cell_at out s 9) = PStr ("=SUM(" ++ PyStr.join "," toks ++ ")") /\
     RangeCollector.expand_tokens "I" toks = Some colored) /\
  max_row out = s /\
  (forall r c, s < r -> cells out !! (r, c) = None) /\
  (forall r c, r <= s -> (r, c) <> (s, 9) -> cells out !! (r, c) = cells sh !! (r, c)).
Proof.
  intros Hwf Hmax out colored s. subst out colored s.
  rewrite apply_sum_i_unfold. cbv zeta.
  pose proof (colored_rows_ascending sh 9) as Ha.
  pose proof (sum_row_i_last sh) as Hs.
  pose proof (in_colored_rows sh 9) as Hin.
  unfold RangeCollector.sum_formula.
  destruct (RangeCollector.colored_rows sh 9) as [|r0 rest] eqn:E.
  - simpl in Hs.
    split; [intros r []|].
    split.
    { intros _. split; [exact Hs|].
      rewrite delete_below_cells by exact Hwf.
      destruct (decide _); [reflexivity|lia]. }
    split; [congruence|].
    split; [apply delete_below_max_row; [exact Hwf|lia|now left]|].
    split.
    + intros r c Hr. rewrite delete_below_cells by exact Hwf.
      destruct (decide _); [lia|reflexivity].
    + intros r c Hr _. rewrite delete_below_cells by exact Hwf.
      destruct (decide _); [reflexivity|lia].
  - assert (Hlast : In (List.last (r0 :: rest) 0) (r0 :: rest)) by (apply last_in; congruence).
    assert (Hle : forall r, In r (r0 :: rest) -> r <= List.last (r0 :: rest) 0)
      by (intros r Hr; now apply ascending_last).
    pose proof (Hin _ Hlast) as Hb.
    set (f := ("=SUM(" ++ PyStr.join "," (RangeCollector.collect_ranges "I" (r0 :: rest))
               ++ ")")%string) in *.
    assert (Hwf1 : rows_within (set_value sh (sum_row_i sh) 9 (PStr f)))
      by now apply rows_within_set_value.
    split; [intros r Hr; specialize (Hle r Hr); lia|].
    split; [congruence|].
    split.
    { intros _. split; [now replace (sum_row_i sh - 1) with (List.last (r0 :: rest) 0) by lia|].
      exists (RangeCollector.collect_ranges "I" (r0 :: rest)).
      split; [|now apply collect_ranges_expand].
      unfold cell_at. rewrite delete_below_cells by exact Hwf1.
      destruct (decide _); [|lia].
      unfold set_value. cbn [cells]. rewrite lookup_insert_eq. reflexivity. }
    split.
    { apply delete_below_max_row; [exact Hwf1|cbn [set_value max_row]; lia|].
      right. unfold set_value. cbn [cells]. rewrite lookup_insert_eq. eauto. }
    split.
    + intros r c Hr. rewrite delete_below_cells by exact Hwf1.
      destruct (decide _); [lia|reflexivity].
    + intros r c Hr Hne. rewrite delete_below_cells by exact Hwf1.
      destruct (decide _); [|lia].
      unfold set_value. cbn [cells]. now rewrite lookup_insert_ne by congruence.
Qed.

Lemma column_i_sum_and_tail_witness :
  max_row (apply_sum_column_i_and_delete_below abc_tail_sample) = sum_row_i abc_tail_sample /\
  cells (apply_sum_column_i_and_delete_below abc_tail_sample) !! (6, 9) = None.
Proof.
  assert (Hwf : rows_within abc_tail_sample)
    by (apply (bool_decide_unpack (rows_within abc_tail_sample)); vm_compute; exact I).
  assert (Hmax : 1 <= max_row abc_tail_sample) by (vm_compute; discriminate).
  pose proof (column_i_sum_and_tail abc_tail_sample Hwf Hmax) as H. cbv zeta in H.
  split; [apply H|].
  apply H. vm_compute. reflexivity.
Defined.
